(** * go-log: a context-aware logging facade over logrus

    Shallow embedding of [logger.go] (package [log]) and verification of
    its argument normaliser, context-field extractor, field constructor,
    formatter selection and logging entry points.

    Go values of static type [interface{}] are embedded as the inductive
    type [any]; a Go slice keeps the distinction between the nil slice
    and a slice of length zero; the process-wide variables of the package
    are threaded explicitly as a [config] record; a runtime panic is an
    explicit outcome. *)

From Stdlib Require Import ZArith NArith Ascii String DecimalString Sorted Permutation.
From stdpp Require Import gmap strings list.

Set Warnings "-register-all".

Open Scope string_scope.
Open Scope Z_scope.
Open Scope list_scope.

(** ** Go values *)

(** The predeclared integer types.  [uintptr] is an integer type of the
    language too; it is listed because the type switch of
    [normalizeArgs] does not name it. *)
Inductive intkind :=
  | KInt | KInt8 | KInt16 | KInt32 | KInt64
  | KUint | KUint8 | KUint16 | KUint32 | KUint64
  | KUintptr.

Inductive floatkind := KFloat32 | KFloat64.

(** Types whose zero value is a typed nil. *)
Inductive refkind := RSlice | RMap | RPtr | RChan | RFunc.

(** The two methods the program asks a dynamic type about:
    [String() string] of [fmt.Stringer] and [Error() string] of [error].
    [Some s] means the dynamic type has the method and calling it on this
    value returns [s]. *)
Record methods := Methods {
  m_String : option string;
  m_Error : option string
}.

(** A value held in an [interface{}].
    - [VNil] is the nil interface (no dynamic type).
    - [VInt k n] is the integer [n] at the predeclared type [k];
      [VFloat k bits] a float given by its IEEE-754 bit pattern.
    - [VNilRef] is a typed nil (nil slice, nil map, nil pointer, ...).
    - [VMap] is a [map[string]T] given by its entries (keys unique, list
      order immaterial); [VStruct] a struct without field tags given by
      its fields in declaration order.
    - [VNamed t ms v] is a value whose dynamic type is the defined type
      [t] (or a pointer to it) with method set [ms]; [v] is what
      reflection sees underneath. *)
Inductive any :=
  | VNil
  | VBool (b : bool)
  | VString (s : string)
  | VInt (k : intkind) (n : Z)
  | VFloat (k : floatkind) (bits : Z)
  | VComplex (re im : Z)
  | VChan (id : nat)
  | VFunc (id : nat)
  | VNilRef (k : refkind)
  | VSlice (l : list any)
  | VMap (m : list (string * any))
  | VStruct (fs : list (string * any))
  | VPtr (v : any)
  | VNamed (tname : string) (ms : methods) (v : any).

(** ** Go slices

    A slice is either nil or has a backing array; [append] to the nil
    slice allocates. *)
Inductive slice (A : Type) :=
  | nil_slice
  | mk_slice (l : list A).
Arguments nil_slice {A}.
Arguments mk_slice {A} l.

Definition elems {A} (s : slice A) : list A :=
  match s with
  | nil_slice => []
  | mk_slice l => l
  end.

Definition len {A} (s : slice A) : nat := length (elems s).

Definition is_nil {A} (s : slice A) : bool :=
  match s with
  | nil_slice => true
  | mk_slice _ => false
  end.

Definition append {A} (s : slice A) (x : A) : slice A :=
  mk_slice (elems s ++ [x]).

(** ** Outcomes *)

(** A Go [(T, error)] result. *)
Inductive result (A : Type) :=
  | Ok (a : A)
  | Err (e : string).
Arguments Ok {A} a.
Arguments Err {A} e.

(** A computation that returns or panics at run time. *)
Inductive outcome (A : Type) :=
  | Returns (a : A)
  | Panics (msg : string).
Arguments Returns {A} a.
Arguments Panics {A} msg.

#[global] Instance outcome_ret : MRet outcome := fun A a => Returns a.

#[global] Instance outcome_bind : MBind outcome := fun A B k c =>
  match c with
  | Returns a => k a
  | Panics msg => Panics msg
  end.

(** ** The JSON encoder (package [encoding/json])

    [jsonString] calls [json.Marshal].  The encoder is modelled on the
    values of [any] as the library of Go 1.17 to 1.21 behaves on types
    without [MarshalJSON] or [MarshalText] methods: HTML-escaping on, map
    keys sorted, unexported struct fields skipped.  Slices of bytes
    (rendered in base64 by the library) are not among the values of
    [VSlice]. *)
Module json.

Definition byte_of (c : ascii) : N := N_of_ascii c.

Definition hex_digit (n : N) : ascii :=
  match n with
  | 0 => "0" | 1 => "1" | 2 => "2" | 3 => "3" | 4 => "4" | 5 => "5"
  | 6 => "6" | 7 => "7" | 8 => "8" | 9 => "9" | 10 => "a" | 11 => "b"
  | 12 => "c" | 13 => "d" | 14 => "e" | _ => "f"
  end%N%char.

(** [htmlSafeSet]: printable ASCII and DEL, except the double quote,
    the backslash and the three HTML characters. *)
Definition htmlSafe (b : N) : bool :=
  (N.leb 32 b && N.ltb b 128
   && negb (N.eqb b 34) && negb (N.eqb b 92)
   && negb (N.eqb b 38) && negb (N.eqb b 60) && negb (N.eqb b 62))%bool.

(** One byte below [utf8.RuneSelf]. *)
Definition escape_ascii (c : ascii) : string :=
  let b := byte_of c in
  if htmlSafe b then String c ""
  else if (N.eqb b 92 || N.eqb b 34)%bool then String "\" (String c "")
  else if N.eqb b 10 then "\n"
  else if N.eqb b 13 then "\r"
  else if N.eqb b 9 then "\t"
  else "\u00" +:+ String (hex_digit (N.shiftr b 4)) (String (hex_digit (N.land b 15)) "").

Definition in_range (lo hi : N) (c : ascii) : bool :=
  (N.leb lo (byte_of c) && N.leb (byte_of c) hi)%bool.

Definition cont (c : ascii) : bool := in_range 128 191 c.

(** Length of the UTF-8 sequence at the head of [s] as
    [utf8.DecodeRuneInString] accepts it; [0] when the head byte does
    not start a valid sequence ([RuneError] of width one). *)
Definition utf8_width (s : string) : nat :=
  match s with
  | String b0 (String b1 r2) =>
      if (in_range 194 223 b0 && cont b1)%bool then 2%nat
      else match r2 with
      | String b2 r3 =>
          let second3 :=
            (in_range 224 224 b0 && in_range 160 191 b1
             || in_range 225 236 b0 && cont b1
             || in_range 237 237 b0 && in_range 128 159 b1
             || in_range 238 239 b0 && cont b1)%bool in
          if (second3 && cont b2)%bool then 3%nat
          else match r3 with
          | String b3 _ =>
              let second4 :=
                (in_range 240 240 b0 && in_range 144 191 b1
                 || in_range 241 243 b0 && cont b1
                 || in_range 244 244 b0 && in_range 128 143 b1)%bool in
              if (second4 && cont b2 && cont b3)%bool then 4%nat else 0%nat
          | _ => 0%nat
          end
      | _ => 0%nat
      end
  | _ => 0%nat
  end.

(** The body of [appendString] between the quotes. *)
Fixpoint escape (s : string) : string :=
  match s with
  | "" => ""
  | String b0 r1 =>
      if N.ltb (byte_of b0) 128 then escape_ascii b0 +:+ escape r1
      else
        match utf8_width s, r1 with
        | 2%nat, String b1 r2 => String b0 (String b1 (escape r2))
        | 3%nat, String b1 (String b2 r3) =>
            if (N.eqb (byte_of b0) 226 && N.eqb (byte_of b1) 128
                && in_range 168 169 b2)%bool
            then "\u202" +:+ String (hex_digit (N.land (byte_of b2) 15)) (escape r3)
            else String b0 (String b1 (String b2 (escape r3)))
        | 4%nat, String b1 (String b2 (String b3 r4)) =>
            String b0 (String b1 (String b2 (String b3 (escape r4))))
        | _, _ => "\ufffd" +:+ escape r1
        end
  end.

Definition quote : ascii := ascii_of_N 34.

Definition appendString (s : string) : string :=
  String quote (escape s +:+ String quote "").

(** [strconv.AppendInt] in base ten. *)
Definition itoa (n : Z) : string := NilZero.string_of_int (Z.to_int n).

(** A struct field is encoded when its name is exported; field names
    are taken to start with an ASCII letter. *)
Definition exported (name : string) : bool :=
  match name with
  | String c _ => in_range 65 90 c
  | "" => false
  end.

(** Map entries are ordered by key, compared bytewise as Go's [<] on
    strings does. *)
Fixpoint insert_by_key (kv : string * string) (l : list (string * string))
    : list (string * string) :=
  match l with
  | [] => [kv]
  | kv' :: r =>
      if String.leb (fst kv) (fst kv') then kv :: l
      else kv' :: insert_by_key kv r
  end.

Definition sort_by_key (l : list (string * string)) : list (string * string) :=
  foldr insert_by_key [] l.

(** The order of two entries in an encoded object. *)
Definition key_le (a b : string * string) : Prop :=
  String.leb (fst a) (fst b) = true.

Fixpoint join (sep : string) (l : list string) : string :=
  match l with
  | [] => ""
  | [x] => x
  | x :: r => x +:+ sep +:+ join sep r
  end.

Definition member (kv : string * string) : string :=
  appendString (fst kv) +:+ ":" +:+ snd kv.

Definition object (es : list (string * string)) : string :=
  "{" +:+ join "," (map member es) +:+ "}".

Definition array (es : list string) : string :=
  "[" +:+ join "," es +:+ "]".

(** Encoding the elements of an array, and the entries of an object:
    the first failure aborts.  [keep] selects the entries that are
    encoded at all. *)
Definition each (enc : any -> result string) : list any -> result (list string) :=
  fix each (l : list any) : result (list string) :=
    match l with
    | [] => Ok []
    | x :: r =>
        match enc x, each r with
        | Ok s, Ok ss => Ok (s :: ss)
        | Err e, _ | _, Err e => Err e
        end
    end.

Definition each_entry (enc : any -> result string) (keep : string -> bool)
    : list (string * any) -> result (list (string * string)) :=
  fix each_entry (m : list (string * any)) : result (list (string * string)) :=
    match m with
    | [] => Ok []
    | (k, x) :: r =>
        if keep k then
          match enc x, each_entry r with
          | Ok s, Ok es => Ok ((k, s) :: es)
          | Err e, _ | _, Err e => Err e
          end
        else each_entry r
    end.

Section Encoder.

(** Floating-point numbers are formatted by [strconv]; the formatter
    is a parameter, [None] standing for NaN and the infinities, which
    the encoder refuses. *)
Variable formatFloat : floatkind -> Z -> option string.

Fixpoint encode (v : any) : result string :=
  match v with
  | VNil => Ok "null"
  | VBool b => Ok (if b then "true" else "false")
  | VString s => Ok (appendString s)
  | VInt _ n => Ok (itoa n)
  | VFloat k bits =>
      match formatFloat k bits with
      | Some s => Ok s
      | None => Err "json: unsupported value"
      end
  | VComplex _ _ | VChan _ | VFunc _ => Err "json: unsupported type"
  | VNilRef (RSlice | RMap | RPtr) => Ok "null"
  | VNilRef (RChan | RFunc) => Err "json: unsupported type"
  | VSlice l =>
      match each encode l with
      | Ok ss => Ok (array ss)
      | Err e => Err e
      end
  | VMap m =>
      match each_entry encode (fun _ => true) m with
      | Ok es => Ok (object (sort_by_key es))
      | Err e => Err e
      end
  | VStruct fs =>
      match each_entry encode exported fs with
      | Ok es => Ok (object es)
      | Err e => Err e
      end
  | VPtr v => encode v
  | VNamed _ _ v => encode v
  end.

(** [json.Marshal(v)]. *)
Definition Marshal (v : any) : result string := encode v.

End Encoder.

End json.

(** Test expectations are written with the apostrophe standing for the
    double quote. *)
Fixpoint dq (s : string) : string :=
  match s with
  | "" => ""
  | String c r => String (if Ascii.eqb c "'" then json.quote else c) (dq r)
  end.

(** ** Package [log]: constants and formatter selection *)

Inductive Formatter := SimpleFormatter | TextFormatter | JSONFormatter.

(** [logrus.Level], re-exported by the package. *)
Inductive Level :=
  | PanicLevel | FatalLevel | ErrorLevel | WarnLevel
  | InfoLevel | DebugLevel | TraceLevel.

Definition formatMap : gmap string Formatter :=
  <["simple" := SimpleFormatter]>
    (<["text" := TextFormatter]>
       (<["json" := JSONFormatter]> ∅)).

Module strings.

Definition isASCII (s : string) : bool :=
  forallb (fun c => N.ltb (N_of_ascii c) 128) (list_ascii_of_string s).

Definition isUpper (c : ascii) : bool :=
  (N.leb 65 (N_of_ascii c) && N.leb (N_of_ascii c) 90)%bool.

Definition hasUpper (s : string) : bool :=
  existsb isUpper (list_ascii_of_string s).

Definition lower_ascii (c : ascii) : ascii :=
  if isUpper c then ascii_of_N (N_of_ascii c + 32) else c.

Fixpoint map_ascii (f : ascii -> ascii) (s : string) : string :=
  match s with
  | "" => ""
  | String c r => String (f c) (map_ascii f r)
  end.

Section ToLower.

(** [strings.Map(unicode.ToLower, s)], the path taken for a string
    with a byte outside ASCII; the Unicode case tables are a
    parameter. *)
Variable unicode_ToLower : string -> string.

(** [strings.ToLower]: ASCII-only strings are lowered bytewise. *)
Definition ToLower (s : string) : string :=
  if isASCII s then
    if hasUpper s then map_ascii lower_ascii s else s
  else unicode_ToLower s.

End ToLower.

End strings.

Section FormatterFromName.

Variable unicode_ToLower : string -> string.

Definition FormatterFromName (name : string) : Formatter :=
  let name := strings.ToLower unicode_ToLower name in
  match formatMap !! name with
  | Some f => f
  | None => JSONFormatter
  end.

End FormatterFromName.

(** ** Argument normalisation *)

(** The method set of the dynamic type of a value. *)
Definition method_set (v : any) : methods :=
  match v with
  | VNamed _ ms _ => ms
  | _ => Methods None None
  end.

(** [_, ok := v.(fmt.Stringer)] and [_, ok := v.(error)]. *)
Definition is_Stringer (v : any) : bool := bool_decide (is_Some (m_String (method_set v))).
Definition is_error (v : any) : bool := bool_decide (is_Some (m_Error (method_set v))).

(** The case list of the type switch in [normalizeArgs], in the order
    of the source: a predeclared type matches only a value of exactly
    that dynamic type. *)
Definition case_passthrough (i : any) : bool :=
  match i with
  | VString _ => true
  | VInt KInt _ | VInt KInt64 _ | VInt KInt32 _ | VInt KInt16 _ | VInt KInt8 _ => true
  | VInt KUint _ | VInt KUint64 _ | VInt KUint32 _ | VInt KUint16 _ | VInt KUint8 _ => true
  | VFloat KFloat32 _ | VFloat KFloat64 _ => true
  | VBool _ => true
  | _ => (is_Stringer i || is_error i)%bool
  end.

Section Normalize.

Variable formatFloat : floatkind -> Z -> option string.

Definition jsonString (v : any) : string :=
  match json.Marshal formatFloat v with
  | Err _ => ""
  | Ok b => b
  end.

(** The body of the [range] loop: one element appended to [n]. *)
Definition normalizeArgs_step (n : slice any) (i : any) : slice any :=
  if case_passthrough i then append n i
  else append n (VString (jsonString i)).

(** The named result [n] starts as the nil slice. *)
Definition normalizeArgs (a : slice any) : slice any :=
  fold_left normalizeArgs_step (elems a) nil_slice.

(** What the loop body puts in the place of one element. *)
Definition normalized (i : any) : any :=
  if case_passthrough i then i else VString (jsonString i).

End Normalize.

(** ** Fields *)

Abbreviation Fields := (gmap string any).

(** The only implementation of the interface [Fld]. *)
Record fld := { key : string; value : any }.

Definition apply (f : fld) (fields : Fields) : Fields :=
  <[key f := value f]> fields.

Definition Field (k : string) (v : any) : fld :=
  match m_Error (method_set v) with
  | Some msg => {| key := k; value := VString msg |}
  | None => {| key := k; value := v |}
  end.

(** ** The backend (logrus)

    An entry carries the fields attached so far.  [Entry.WithFields]
    copies the data of the entry and writes the given mapping over it,
    except the fields it refuses: those whose value is a function or a
    pointer to a function are not written (the entry keeps a note of the
    refusal, which is not part of its data).  A log call on an entry
    hands level, data and payload to the logger, recorded here as a
    [record]. *)
Record Entry := { Data : Fields }.

Definition NewEntry : Entry := {| Data := ∅ |}.

(** The value beneath the names of defined types. *)
Fixpoint underlying (v : any) : any :=
  match v with
  | VNamed _ _ w => underlying w
  | _ => v
  end.

(** [reflect.TypeOf(v).Kind() == reflect.Func]. *)
Definition kind_Func (v : any) : bool :=
  match underlying v with
  | VFunc _ | VNilRef RFunc => true
  | _ => false
  end.

(** The test of [Entry.WithFields]: the kind of the value is [Func], or
    it is [Ptr] with an element of kind [Func].  The nil interface has
    no type and passes; [VNilRef RPtr] stands for a nil pointer to
    something that is not a function. *)
Definition isErrField (v : any) : bool :=
  (kind_Func v
   || match underlying v with
      | VPtr w => kind_Func w
      | _ => false
      end)%bool.

Definition Entry_WithFields (entry : Entry) (fields : Fields) : Entry :=
  {| Data := filter (fun kv => isErrField kv.2 = false) fields ∪ Data entry |}.

Definition logger_WithFields (fields : Fields) : Entry :=
  Entry_WithFields NewEntry fields.

Inductive payload :=
  | Plain (i : any)
  | Formatted (format : string) (args : slice any).

Record record := { r_level : Level; r_data : Fields; r_payload : payload }.

Definition Entry_Log (entry : Entry) (lvl : Level) (i : any) : record :=
  {| r_level := lvl; r_data := Data entry; r_payload := Plain i |}.

Definition Entry_Logf (entry : Entry) (lvl : Level) (format : string)
    (args : slice any) : record :=
  {| r_level := lvl; r_data := Data entry; r_payload := Formatted format args |}.

Definition withFields (entry : Entry) (flds : list fld) : Entry :=
  let fields := fold_left (fun fields f => apply f fields) flds ∅ in
  Entry_WithFields entry fields.

(** ** Context extraction and entry points *)

Section Logger.

(** Context keys are opaque comparable values; [Sprint f] is
    [fmt.Sprintf("%v", f)]. *)
Context {Key : Type} `{EqDecision Key}.
Variable Sprint : Key -> string.
Variable formatFloat : floatkind -> Z -> option string.

(** A [context.Context] is the chain of [WithValue] bindings, innermost
    first, over a background context. *)
Definition Ctx := list (Key * any).

Definition Background : Ctx := [].

Definition WithValue (parent : Ctx) (k : Key) (v : any) : Ctx := (k, v) :: parent.

Fixpoint Value (ctx : Ctx) (k : Key) : any :=
  match ctx with
  | [] => VNil
  | (k', v) :: parent => if decide (k' = k) then v else Value parent k
  end.

(** The lookup of [f] is absent or a string. *)
Definition nil_or_string (ctx : Ctx) (f : Key) : Prop :=
  Value ctx f = VNil \/ exists s, Value ctx f = VString s.

(** The package variables set by [Init]. *)
Record config := { formatter : Formatter; level : Level; ctxFields : list Key }.

(** An unknown formatter value leaves the formatter as it is; the
    three constants are all values of [Formatter]. *)
Definition Init (f : Formatter) (l : Level) (contextFields : list Key) : config :=
  {| formatter := f; level := l; ctxFields := contextFields |}.

(** [val.(string)] without the comma-ok form.  The message of the
    run-time panic also names the dynamic type of the value; one text
    stands for every such panic here. *)
Definition assert_string (val : any) : outcome string :=
  match val with
  | VString s => Returns s
  | _ => Panics "interface conversion: interface {} is not string"
  end.

Definition is_nil_interface (val : any) : bool :=
  match val with
  | VNil => true
  | _ => false
  end.

Fixpoint withContext_loop (ctx : Ctx) (fs : list Key) (fields : Fields)
    : outcome Fields :=
  match fs with
  | [] => Returns fields
  | f :: rest =>
      let val := Value ctx f in
      if is_nil_interface val then withContext_loop ctx rest fields
      else
        s ← assert_string val;
        withContext_loop ctx rest (<[Sprint f := VString s]> fields)
  end.

Definition withContext (cfg : config) (ctx : Ctx) : outcome Entry :=
  fields ← withContext_loop ctx (ctxFields cfg) ∅;
  mret (logger_WithFields fields).

Definition Info (cfg : config) (ctx : Ctx) (i : any) (flds : list fld) : outcome record :=
  e ← withContext cfg ctx; mret (Entry_Log (withFields e flds) InfoLevel i).

Definition Infof (cfg : config) (ctx : Ctx) (format : string) (a : slice any)
    : outcome record :=
  e ← withContext cfg ctx;
  mret (Entry_Logf e InfoLevel format (normalizeArgs formatFloat a)).

Definition Warn (cfg : config) (ctx : Ctx) (w : any) (flds : list fld) : outcome record :=
  e ← withContext cfg ctx; mret (Entry_Log (withFields e flds) WarnLevel w).

Definition Warnf (cfg : config) (ctx : Ctx) (format : string) (a : slice any)
    : outcome record :=
  e ← withContext cfg ctx;
  mret (Entry_Logf e WarnLevel format (normalizeArgs formatFloat a)).

Definition Error (cfg : config) (ctx : Ctx) (e : any) (flds : list fld) : outcome record :=
  en ← withContext cfg ctx; mret (Entry_Log (withFields en flds) ErrorLevel e).

Definition Errorf (cfg : config) (ctx : Ctx) (format : string) (a : slice any)
    : outcome record :=
  e ← withContext cfg ctx;
  mret (Entry_Logf e ErrorLevel format (normalizeArgs formatFloat a)).

Definition Debug (cfg : config) (ctx : Ctx) (d : any) (flds : list fld) : outcome record :=
  e ← withContext cfg ctx; mret (Entry_Log (withFields e flds) DebugLevel d).

Definition Debugf (cfg : config) (ctx : Ctx) (format : string) (a : slice any)
    : outcome record :=
  e ← withContext cfg ctx;
  mret (Entry_Logf e DebugLevel format (normalizeArgs formatFloat a)).

Definition Fatal (cfg : config) (ctx : Ctx) (err : any) : outcome record :=
  e ← withContext cfg ctx; mret (Entry_Log e FatalLevel err).

Definition Fatalf (cfg : config) (ctx : Ctx) (format : string) (args : slice any)
    : outcome record :=
  e ← withContext cfg ctx; mret (Entry_Logf e FatalLevel format args).

End Logger.

(** ** The simple formatter

    [simpleFormatter.Format] reads the message and the fields of the
    entry the backend hands it.  The order in which [range] yields the
    entries of a Go map is not specified: the entries as yielded are the
    argument [range], a permutation of the entries of [entry.Data]. *)

Definition newline : string := String (ascii_of_N 10) "".

Definition yields (data : Fields) (range : list (string * any)) : Prop :=
  range ≡ₚ map_to_list data.

Section simpleFormatter.

Variable formatFloat : floatkind -> Z -> option string.

(** [sv, ok := v.(string); if !ok { sv = jsonString(v) }]. *)
Definition field_text (v : any) : string :=
  match v with
  | VString sv => sv
  | _ => jsonString formatFloat v
  end.

(** The body of the loop: four writes to the builder [data]. *)
Definition Format_step (data : string) (kv : string * any) : string :=
  data +:+ " | " +:+ fst kv +:+ "=" +:+ field_text (snd kv).

Definition Format (entry : Entry) (Message : string) (range : list (string * any))
    : result string :=
  if (0 <? size (Data entry))%nat then
    let data := fold_left Format_step range "" in
    Ok (Message +:+ "  " +:+ data +:+ newline)
  else Ok (Message +:+ newline).

End simpleFormatter.

(** ** Bytes of a string *)

Definition bytes (s : string) : list N := map N_of_ascii (list_ascii_of_string s).

(** No byte below the space: no control character. *)
Definition no_control (s : string) : Prop := Forall (fun b => (32 <= b)%N) (bytes s).

(** No line feed. *)
Definition one_line (s : string) : Prop := Forall (fun b => b <> 10%N) (bytes s).

#[global] Instance no_control_dec s : Decision (no_control s).
Proof. unfold no_control. apply _. Defined.

(** ** Shapes of extracted values *)

(** Every value of the mapping is a string. *)
Definition string_valued (fields : Fields) : Prop :=
  map_Forall (fun _ v => exists s, v = VString s) fields.

(** A context value on which the assertion [val.(string)] is reached
    and fails. *)
Definition bad_value (v : any) : bool :=
  match v with
  | VNil | VString _ => false
  | _ => true
  end.

(** ** Fixtures of the package's tests *)

Definition testJSON : string := dq "{'a':'apple','b':'banana','c':{'d':'e'},1:3}".
Definition testInt : any := VInt KInt 1.
(** [1.1] as a [float64]. *)
Definition testFloat : any := VFloat KFloat64 0x3FF199999999999A.
Definition testBool : any := VBool true.
Definition testStr : string := "1".
Definition testJSONResult : string := dq "{'a':'apple','b':'banana'}".
Definition testStruct0Result : string := dq "{'F1':'hello','F2':2}".

Definition testStruct0 : any :=
  VNamed "testStruct" (Methods None None)
    (VStruct [("F1", VString "hello"); ("F2", VInt KInt 2)]).

Definition testMap : any := VMap [("a", VString "apple"); ("b", VString "banana")].

(** A value as [errors.New] returns it. *)
Definition errors_New (text : string) : any :=
  VNamed "*errors.errorString" (Methods None (Some text))
    (VPtr (VStruct [("s", VString text)])).

(** The context and the registered keys of [TestLogging]: keys are
    strings, which [%v] prints as they are. *)
Definition Sprint_string (f : string) : string := f.

Definition testCtx : @Ctx string :=
  WithValue (WithValue Background "requestId" (VString "request-id"))
    "userId" (VString "user-id").

Definition testCfg : @config string :=
  Init SimpleFormatter DebugLevel ["requestId"; "userId"].

(** No float is formatted in the examples. *)
Definition no_floats : floatkind -> Z -> option string := fun _ _ => None.

(** * Properties *)

(** ** The encoder on examples *)

Example Marshal_testMap : forall ff,
  json.Marshal ff (VMap [("b", VString "banana"); ("a", VString "apple")])
  = Ok (dq "{'a':'apple','b':'banana'}").
Proof. reflexivity. Qed.

Example Marshal_nested : forall ff,
  json.Marshal ff (VSlice [VInt KInt (-12); VNil; VBool true; VString "<a&b>";
                           VStruct [("F", VInt KInt 0); ("g", VChan 0)]])
  = Ok (dq "[-12,null,true,'\u003ca\u0026b\u003e',{'F':0}]").
Proof. reflexivity. Qed.

Example escape_utf8 :
  json.escape (String (ascii_of_N 195) (String (ascii_of_N 169)
     (String (ascii_of_N 226) (String (ascii_of_N 128) (String (ascii_of_N 168)
     (String (ascii_of_N 255) (String (ascii_of_N 8) "")))))))
  = String (ascii_of_N 195) (String (ascii_of_N 169) "\u2028\ufffd\u0008").
Proof. reflexivity. Qed.

Example FormatterFromName_bogus : forall u, FormatterFromName u "bogus" = JSONFormatter.
Proof. reflexivity. Qed.

Example FormatterFromName_TEXT : forall u, FormatterFromName u "TEXT" = TextFormatter.
Proof. reflexivity. Qed.

(** ** The normaliser *)

Lemma normalizeArgs_step_elems ff n i :
  elems (normalizeArgs_step ff n i) = elems n ++ [normalized ff i].
Proof.
  unfold normalizeArgs_step, normalized.
  destruct (case_passthrough i); reflexivity.
Qed.

Lemma normalizeArgs_loop_elems ff l n :
  elems (fold_left (normalizeArgs_step ff) l n) = elems n ++ map (normalized ff) l.
Proof.
  revert n. induction l as [|i l IH]; intros n; simpl.
  - by rewrite app_nil_r.
  - rewrite IH, normalizeArgs_step_elems, <- app_assoc. reflexivity.
Qed.

Lemma normalizeArgs_elems ff a :
  elems (normalizeArgs ff a) = map (normalized ff) (elems a).
Proof. unfold normalizeArgs. by rewrite normalizeArgs_loop_elems. Qed.

Lemma normalizeArgs_step_allocates ff n i : is_nil (normalizeArgs_step ff n i) = false.
Proof. unfold normalizeArgs_step. destruct (case_passthrough i); reflexivity. Qed.

Lemma normalizeArgs_loop_allocated ff l n :
  is_nil n = false -> is_nil (fold_left (normalizeArgs_step ff) l n) = false.
Proof.
  revert n. induction l as [|i l IH]; intros n Hn; simpl; [done|].
  apply IH, normalizeArgs_step_allocates.
Qed.

Lemma slice_eq {A} (s t : slice A) :
  is_nil s = is_nil t -> elems s = elems t -> s = t.
Proof. destruct s, t; simpl; congruence. Qed.

Lemma normalizeArgs_nonempty ff a x l :
  elems a = x :: l ->
  normalizeArgs ff a = mk_slice (map (normalized ff) (x :: l)).
Proof.
  intros Ha. apply slice_eq.
  - unfold normalizeArgs. rewrite Ha. simpl.
    apply normalizeArgs_loop_allocated, normalizeArgs_step_allocates.
  - rewrite normalizeArgs_elems, Ha. reflexivity.
Qed.

Lemma normalizeArgs_empty ff a : elems a = [] -> normalizeArgs ff a = nil_slice.
Proof. intros Ha. unfold normalizeArgs. by rewrite Ha. Qed.

(** The test [TestNormalizeArgs]. *)
Example TestNormalizeArgs : forall ff,
  normalizeArgs ff
    (mk_slice [VString testJSON; VString testStr; testInt; testBool; testFloat;
               testMap; testStruct0])
  = mk_slice [VString testJSON; VString testStr; testInt; testBool; testFloat;
              VString testJSONResult; VString testStruct0Result].
Proof. reflexivity. Qed.

Lemma passthrough_normalized ff i : case_passthrough i = true -> normalized ff i = i.
Proof. unfold normalized. by intros ->. Qed.

Lemma default_normalized ff i :
  case_passthrough i = false -> normalized ff i = VString (jsonString ff i).
Proof. unfold normalized. by intros ->. Qed.

Lemma case_passthrough_methods i :
  is_Some (m_String (method_set i)) \/ is_Some (m_Error (method_set i)) ->
  case_passthrough i = true.
Proof.
  intros H.
  assert (Hm : (is_Stringer i || is_error i)%bool = true).
  { unfold is_Stringer, is_error. apply orb_true_iff.
    destruct H; [left | right]; by apply bool_decide_eq_true. }
  destruct i as [| | |k ?|k ?| | | | | | | | |]; simpl; try exact Hm; try reflexivity.
  - by destruct k.
  - by destruct k.
Qed.

(** C1 as the code has it.  A string, an integer of type int, int8 ...
    int64, uint, uint8 ... uint64 (the unsigned integer type uintptr is
    not among them), a float32 or float64, a boolean, a value whose type
    has a [String] method and a value whose type has an [Error] method
    each normalise to themselves: [normalizeArgs([x]) == [x]].  A value
    with an [Error] method stays the value; its message is not put in
    its place. *)
Theorem normalizeArgs_passthrough ff (x : any) :
  (exists s, x = VString s)
  \/ (exists k n, x = VInt k n /\ k <> KUintptr)
  \/ (exists k bits, x = VFloat k bits)
  \/ (exists b, x = VBool b)
  \/ is_Some (m_String (method_set x))
  \/ is_Some (m_Error (method_set x)) ->
  normalizeArgs ff (mk_slice [x]) = mk_slice [x]
  /\ forall msg, m_Error (method_set x) = Some msg ->
       normalizeArgs ff (mk_slice [x]) <> mk_slice [VString msg].
Proof.
  intros H.
  assert (Hp : case_passthrough x = true).
  { destruct H as [[s ->]|[(k & n & -> & Hk)|[(k & bits & ->)|[[b ->]|H]]]].
    - reflexivity.
    - by destruct k.
    - by destruct k.
    - reflexivity.
    - by apply case_passthrough_methods. }
  assert (Hx : normalizeArgs ff (mk_slice [x]) = mk_slice [x]).
  { rewrite (normalizeArgs_nonempty ff _ x []) by reflexivity.
    simpl. by rewrite passthrough_normalized. }
  split; [exact Hx|].
  intros msg Hmsg. rewrite Hx. intros [= ->]. discriminate Hmsg.
Qed.

Lemma normalizeArgs_passthrough_witness :
  normalizeArgs no_floats (mk_slice [errors_New "boom"]) = mk_slice [errors_New "boom"]
  /\ forall msg, m_Error (method_set (errors_New "boom")) = Some msg ->
       normalizeArgs no_floats (mk_slice [errors_New "boom"]) <> mk_slice [VString msg].
Proof.
  apply (normalizeArgs_passthrough no_floats (errors_New "boom")).
  right; right; right; right; right. simpl. eauto.
Defined.

(** C1, an unsigned integer the type switch does not name: a [uintptr]
    is not passed through, it is replaced by its JSON encoding. *)
Lemma normalizeArgs_uintptr_encoded :
  normalizeArgs no_floats (mk_slice [VInt KUintptr 5]) = mk_slice [VString "5"]
  /\ normalizeArgs no_floats (mk_slice [VInt KUintptr 5]) <> mk_slice [VInt KUintptr 5].
Proof. split; [reflexivity|discriminate]. Qed.

(** Types the switch does not name take the encoder: [uintptr], and
    defined types without a [String] or [Error] method, whatever their
    underlying type. *)
Example normalizeArgs_unlisted_types : forall ff,
  normalizeArgs ff
    (mk_slice [VInt KUintptr 5; VNamed "Formatter" (Methods None None) (VInt KInt 2);
               VNamed "name" (Methods None None) (VString "x"); VNil])
  = mk_slice [VString "5"; VString "2"; VString (dq "'x'"); VString "null"].
Proof. reflexivity. Qed.

(** C3.  An element that reaches the encoder and whose encoding fails is
    replaced by the empty string, and the elements before and after it
    are normalised as they are without it; no error is returned.  A
    channel and a function are such elements. *)
Theorem normalizeArgs_encoding_failure ff (pre post : list any) (x : any) (e : string) :
  case_passthrough x = false ->
  json.Marshal ff x = Err e ->
  elems (normalizeArgs ff (mk_slice (pre ++ x :: post)))
  = elems (normalizeArgs ff (mk_slice pre)) ++ VString "" :: elems (normalizeArgs ff (mk_slice post)).
Proof.
  intros Hp He. rewrite !normalizeArgs_elems. simpl.
  rewrite map_app. simpl. rewrite default_normalized by done.
  unfold jsonString. by rewrite He.
Qed.

Lemma normalizeArgs_encoding_failure_witness :
  elems (normalizeArgs no_floats (mk_slice ([VInt KInt 1] ++ VChan 0 :: [testMap])))
  = elems (normalizeArgs no_floats (mk_slice [VInt KInt 1]))
    ++ VString "" :: elems (normalizeArgs no_floats (mk_slice [testMap])).
Proof.
  apply (normalizeArgs_encoding_failure no_floats [VInt KInt 1] [testMap] (VChan 0)
           "json: unsupported type"); reflexivity.
Defined.

Example normalizeArgs_chan_func : forall ff c f,
  normalizeArgs ff (mk_slice [VChan c; VInt KInt 7; VFunc f; VNilRef RFunc; VComplex 0 0])
  = mk_slice [VString ""; VInt KInt 7; VString ""; VString ""; VString ""].
Proof. reflexivity. Qed.

(** C6 as the code has it.  The output has the length of the input and
    its element [i] is the normalisation of input element [i]; on an
    input without elements the result is the nil slice, the named result
    never having been appended to. *)
Theorem normalizeArgs_length_order ff (a : slice any) :
  len (normalizeArgs ff a) = len a
  /\ (forall i : nat, elems (normalizeArgs ff a) !! i = normalized ff <$> elems a !! i)
  /\ normalizeArgs ff nil_slice = nil_slice
  /\ normalizeArgs ff (mk_slice []) = nil_slice.
Proof.
  split; [|split; [|split; reflexivity]].
  - unfold len. by rewrite normalizeArgs_elems, length_map.
  - intros i. by rewrite normalizeArgs_elems, list_lookup_fmap.
Qed.

(** C6, the empty input: the result is the nil slice, not the slice of
    length zero that was passed in. *)
Lemma normalizeArgs_empty_is_nil :
  normalizeArgs no_floats (mk_slice []) = nil_slice
  /\ normalizeArgs no_floats (mk_slice []) <> mk_slice []
  /\ is_nil (normalizeArgs no_floats (mk_slice [])) = true.
Proof. repeat split. discriminate. Qed.

(** ** Object keys come out sorted *)

Lemma insert_by_key_perm kv l : json.insert_by_key kv l ≡ₚ kv :: l.
Proof.
  induction l as [|kv' l IH]; simpl; [done|].
  destruct (String.leb kv.1 kv'.1); [done|].
  rewrite IH. apply perm_swap.
Qed.

Lemma sort_by_key_perm l : json.sort_by_key l ≡ₚ l.
Proof.
  induction l as [|kv l IH]; simpl; [done|].
  by rewrite insert_by_key_perm, IH.
Qed.

Lemma insert_by_key_hd kv kv' l :
  json.key_le kv' kv -> HdRel json.key_le kv' l -> HdRel json.key_le kv' (json.insert_by_key kv l).
Proof.
  intros Hle Hhd. destruct l as [|x l]; simpl.
  - by constructor.
  - destruct (String.leb kv.1 x.1); constructor; [done|].
    by inversion Hhd.
Qed.

Lemma insert_by_key_sorted kv l :
  Sorted json.key_le l -> Sorted json.key_le (json.insert_by_key kv l).
Proof.
  induction 1 as [|kv' l Hs IH Hhd]; simpl.
  - repeat constructor.
  - destruct (String.leb kv.1 kv'.1) eqn:Hle.
    + constructor; [by constructor|]. by constructor.
    + constructor; [exact IH|].
      apply insert_by_key_hd; [|done].
      unfold json.key_le. destruct (String.leb_total kv.1 kv'.1); congruence.
Qed.

Lemma sort_by_key_sorted l : Sorted json.key_le (json.sort_by_key l).
Proof.
  induction l as [|kv l IH]; simpl; [constructor|].
  by apply insert_by_key_sorted.
Qed.

Lemma each_entry_all_keys enc m es :
  json.each_entry enc (fun _ => true) m = Ok es -> es.*1 = m.*1.
Proof.
  revert es. induction m as [|[k x] m IH]; intros es; simpl.
  - by intros [= <-].
  - destruct (enc x); [|discriminate].
    destruct (json.each_entry enc (fun _ => true) m) as [es'|]; [|discriminate].
    intros [= <-]. simpl. f_equal. by apply IH.
Qed.

Lemma string_compare_trans_le (a b c : string) :
  String.compare a b <> Gt -> String.compare b c <> Gt -> String.compare a c <> Gt.
Proof.
  revert b c. induction a as [|x a IH]; intros [|y b] [|z c]; simpl; try done.
  unfold Ascii.compare.
  destruct (N.compare_spec (N_of_ascii x) (N_of_ascii y)) as [Hxy|Hxy|Hxy];
    destruct (N.compare_spec (N_of_ascii y) (N_of_ascii z)) as [Hyz|Hyz|Hyz];
    try done.
  - rewrite Hxy, Hyz, N.compare_refl. apply IH.
  - intros _ _. rewrite Hxy. by rewrite (proj2 (N.compare_lt_iff _ _) Hyz).
  - intros _ _. rewrite <- Hyz. by rewrite (proj2 (N.compare_lt_iff _ _) Hxy).
  - intros _ _. by rewrite (proj2 (N.compare_lt_iff _ _) (N.lt_trans _ _ _ Hxy Hyz)).
Qed.

Lemma string_leb_trans (a b c : string) :
  String.leb a b = true -> String.leb b c = true -> String.leb a c = true.
Proof.
  unfold String.leb. intros Hab Hbc.
  pose proof (string_compare_trans_le a b c) as H.
  destruct (String.compare a b), (String.compare b c), (String.compare a c);
    try done; exfalso; by apply H.
Qed.

Lemma key_le_trans : Relations_1.Transitive json.key_le.
Proof. intros a b c. unfold json.key_le. apply string_leb_trans. Qed.

Lemma sorted_entries_unique (l l' : list (string * string)) :
  Sorted json.key_le l -> Sorted json.key_le l' ->
  l ≡ₚ l' -> NoDup l.*1 -> l = l'.
Proof.
  intros Hl Hl'. apply Sorted_StronglySorted in Hl; [|exact key_le_trans].
  apply Sorted_StronglySorted in Hl'; [|exact key_le_trans].
  revert l' Hl'. induction Hl as [|x l Hl IH Hx]; intros l' Hl' Hp Hnd.
  - by apply Permutation_nil_l in Hp.
  - destruct Hl' as [|y l' Hl' Hy].
    { by apply Permutation_nil_r in Hp. }
    rewrite fmap_cons in Hnd. apply NoDup_cons in Hnd as [Hxl Hnd].
    assert (Hxy : x = y).
    { destruct (decide (x = y)) as [|Hne]; [done|exfalso].
      assert (Hx' : x ∈ l').
      { assert (Hin : x ∈ y :: l') by (rewrite <- Hp; left).
        apply elem_of_cons in Hin as [|]; done. }
      assert (Hy' : y ∈ l).
      { assert (Hin : y ∈ x :: l) by (rewrite Hp; left).
        apply elem_of_cons in Hin as [|]; done. }
      rewrite Forall_forall in Hx, Hy.
      assert (x.1 = y.1) as Hk.
      { apply String.leb_antisym; [by apply Hx | by apply Hy]. }
      apply Hxl. rewrite Hk. apply list_elem_of_fmap. by exists y. }
    subst y. f_equal. apply IH; [done| |done].
    by apply Permutation_cons_inv in Hp.
Qed.

Lemma each_entry_perm enc (m m' : list (string * any)) es :
  m ≡ₚ m' ->
  json.each_entry enc (fun _ => true) m = Ok es ->
  exists es', json.each_entry enc (fun _ => true) m' = Ok es' /\ es ≡ₚ es'.
Proof.
  intros Hp. revert es. induction Hp as [|[k x] m m' Hp IH|[k x] [k' x'] m|m m' m'' _ IH1 _ IH2];
    intros es; simpl.
  - intros [= <-]. by exists [].
  - destruct (enc x); [|discriminate].
    destruct (json.each_entry enc (fun _ => true) m) as [es0|]; [|discriminate].
    intros [= <-]. destruct (IH es0 eq_refl) as (es' & -> & Hes').
    eexists. split; [done|]. by constructor.
  - destruct (enc x'), (enc x); try discriminate.
    destruct (json.each_entry enc (fun _ => true) m) as [es0|]; [|discriminate].
    intros [= <-]. eexists. split; [done|]. apply perm_swap.
  - intros Hes. destruct (IH1 es Hes) as (es1 & H1 & Hp1).
    destruct (IH2 es1 H1) as (es2 & H2 & Hp2).
    exists es2. split; [done|]. by etrans.
Qed.

(** The order in which the entries of a map are listed does not show in
    its encoding. *)
Lemma Marshal_map_order ff (m m' : list (string * any)) s :
  m ≡ₚ m' -> NoDup m.*1 ->
  json.Marshal ff (VMap m) = Ok s -> json.Marshal ff (VMap m') = Ok s.
Proof.
  intros Hp Hnd. unfold json.Marshal. simpl.
  destruct (json.each_entry (json.encode ff) (fun _ => true) m) as [es|] eqn:Hes;
    [|discriminate].
  intros [= <-].
  destruct (each_entry_perm _ m m' es Hp Hes) as (es' & -> & Hes').
  do 2 f_equal. apply sorted_entries_unique.
  - apply sort_by_key_sorted.
  - apply sort_by_key_sorted.
  - by rewrite !sort_by_key_perm.
  - by rewrite sort_by_key_perm, <- Hes', (each_entry_all_keys _ _ _ Hes).
Qed.

(** C2.  A value outside the pass-through classes whose encoding
    succeeds is replaced by that encoding, as a string; maps, structs,
    slices and pointers are such values; the members of an encoded map
    are its entries in ascending order of their keys, whatever order the
    map yields them in; the map and the struct of the tests give the
    strings the tests expect. *)
Theorem normalizeArgs_json_encodes ff :
  (forall x s, case_passthrough x = false -> json.Marshal ff x = Ok s ->
     normalizeArgs ff (mk_slice [x]) = mk_slice [VString s])
  /\ (forall m fs l v,
        case_passthrough (VMap m) = false /\ case_passthrough (VStruct fs) = false
        /\ case_passthrough (VSlice l) = false /\ case_passthrough (VPtr v) = false)
  /\ (forall m s, json.Marshal ff (VMap m) = Ok s ->
        exists es, s = json.object es /\ es.*1 ≡ₚ m.*1 /\ Sorted json.key_le es)
  /\ (forall m m' s, m ≡ₚ m' -> NoDup m.*1 ->
        json.Marshal ff (VMap m) = Ok s -> json.Marshal ff (VMap m') = Ok s)
  /\ normalizeArgs ff (mk_slice [testMap]) = mk_slice [VString testJSONResult]
  /\ normalizeArgs ff (mk_slice [testStruct0]) = mk_slice [VString testStruct0Result].
Proof.
  split; [|split; [|split; [|split; [|split; reflexivity]]]].
  - intros x s Hp Hs.
    rewrite (normalizeArgs_nonempty ff _ x []) by reflexivity. simpl.
    rewrite default_normalized by done. unfold jsonString. by rewrite Hs.
  - by intros.
  - intros m s. unfold json.Marshal. simpl.
    destruct (json.each_entry (json.encode ff) (fun _ => true) m) as [es|] eqn:Hes;
      [|discriminate].
    intros [= <-]. exists (json.sort_by_key es). split; [done|]. split.
    + rewrite sort_by_key_perm. by rewrite (each_entry_all_keys _ _ _ Hes).
    + apply sort_by_key_sorted.
  - intros m m' s. apply Marshal_map_order.
Qed.

Lemma normalizeArgs_json_encodes_witness :
  normalizeArgs no_floats (mk_slice [VSlice [testMap; VNil]])
  = mk_slice [VString (dq "[{'a':'apple','b':'banana'},null]")].
Proof.
  apply (proj1 (normalizeArgs_json_encodes no_floats)); reflexivity.
Defined.

(** ** The field constructor *)

(** C8.  [Field(key, value)] keeps [value] as it is unless its type has
    an [Error] method; then the field holds the message, a string,
    computed when the field is made, and not the error value. *)
Theorem Field_stores (k : string) (v : any) :
  (m_Error (method_set v) = None -> Field k v = {| key := k; value := v |})
  /\ (forall msg, m_Error (method_set v) = Some msg ->
        Field k v = {| key := k; value := VString msg |} /\ value (Field k v) <> v).
Proof.
  unfold Field. split.
  - by intros ->.
  - intros msg Hmsg. rewrite Hmsg. split; [done|].
    simpl. intros <-. discriminate Hmsg.
Qed.

Lemma Field_stores_witness :
  Field "cause" (errors_New "disk full") = {| key := "cause"; value := VString "disk full" |}
  /\ value (Field "cause" (errors_New "disk full")) <> errors_New "disk full".
Proof.
  apply (proj2 (Field_stores "cause" (errors_New "disk full")) "disk full").
  reflexivity.
Defined.

Example Field_plain :
  Field "field1" (VString "value1") = {| key := "field1"; value := VString "value1" |}.
Proof. reflexivity. Qed.

(** ** Formatter selection *)

Lemma map_lower_no_upper s :
  strings.hasUpper s = false -> strings.map_ascii strings.lower_ascii s = s.
Proof.
  unfold strings.hasUpper. induction s as [|c s IH]; simpl; [done|].
  intros [Hc Hs]%orb_false_iff. rewrite IH by done.
  unfold strings.lower_ascii. by rewrite Hc.
Qed.

Lemma ToLower_ascii u s :
  strings.isASCII s = true -> strings.ToLower u s = strings.map_ascii strings.lower_ascii s.
Proof.
  intros Ha. unfold strings.ToLower. rewrite Ha.
  destruct (strings.hasUpper s) eqn:Hu; [done|].
  by rewrite map_lower_no_upper.
Qed.

(** C9.  The name is lowered before the lookup, an ASCII name byte by
    byte, so that the three names match in any mix of cases; a name that
    lowers to none of the three selects the JSON formatter, as ["bogus"]
    does, and ["TEXT"] selects the text formatter. *)
Theorem FormatterFromName_matches u (name : string) :
  (strings.isASCII name = true ->
     strings.ToLower u name = strings.map_ascii strings.lower_ascii name)
  /\ (strings.ToLower u name = "simple" -> FormatterFromName u name = SimpleFormatter)
  /\ (strings.ToLower u name = "text" -> FormatterFromName u name = TextFormatter)
  /\ (strings.ToLower u name = "json" -> FormatterFromName u name = JSONFormatter)
  /\ (strings.ToLower u name <> "simple" -> strings.ToLower u name <> "text" ->
      strings.ToLower u name <> "json" -> FormatterFromName u name = JSONFormatter)
  /\ FormatterFromName u "bogus" = JSONFormatter
  /\ FormatterFromName u "TEXT" = TextFormatter.
Proof.
  unfold FormatterFromName.
  repeat split; try (by intros ->).
  - apply ToLower_ascii.
  - intros H1 H2 H3. unfold formatMap.
    rewrite !lookup_insert_ne by done. by rewrite lookup_empty.
Qed.

Lemma FormatterFromName_matches_witness :
  FormatterFromName (fun s => s) "SiMpLe" = SimpleFormatter
  /\ FormatterFromName (fun s => s) "Json" = JSONFormatter
  /\ FormatterFromName (fun s => s) "yaml" = JSONFormatter.
Proof.
  split; [|split].
  - destruct (FormatterFromName_matches (fun s => s) "SiMpLe") as (_ & H & _).
    apply H. reflexivity.
  - destruct (FormatterFromName_matches (fun s => s) "Json") as (_ & _ & _ & H & _).
    apply H. reflexivity.
  - destruct (FormatterFromName_matches (fun s => s) "yaml") as (_ & _ & _ & _ & H & _).
    apply H; discriminate.
Defined.

(** ** Context extraction *)

Section ContextFields.

Context {Key : Type} `{EqDecision Key}.
Variable Sprint : Key -> string.

Lemma withContext_loop_strings (ctx : Ctx) (fs : list Key) (fields : Fields) :
  (forall f, f ∈ fs -> nil_or_string ctx f) ->
  exists out, withContext_loop Sprint ctx fs fields = Returns out
    /\ (forall name, is_Some (out !! name) <->
          is_Some (fields !! name)
          \/ exists f, f ∈ fs /\ Sprint f = name /\ Value ctx f <> VNil)
    /\ (forall name v, out !! name = Some v ->
          fields !! name = Some v
          \/ exists f, f ∈ fs /\ Sprint f = name /\ Value ctx f = v /\ v <> VNil).
Proof.
  revert fields. induction fs as [|f fs IH]; intros fields Hok; simpl.
  - exists fields. split; [done|]. split.
    + intros name. split; [by left|]. intros [?|(f & Hf & _)]; [done|].
      by apply elem_of_nil in Hf.
    + intros name v Hv. by left.
  - assert (Hrest : forall g, g ∈ fs -> nil_or_string ctx g).
    { intros g Hg. apply Hok. by right. }
    destruct (Hok f) as [Hnil|[s Hs]]; [by left| |].
    + rewrite Hnil. simpl.
      destruct (IH fields Hrest) as (out & Hrun & Hdom & Hval).
      exists out. split; [done|]. split.
      * intros name. rewrite Hdom. split.
        -- intros [?|(g & Hg & ? & ?)]; [by left|].
           right. exists g. split; [by right|done].
        -- intros [?|(g & Hg & Hname & Hne)]; [by left|].
           apply elem_of_cons in Hg as [->|Hg]; [done|].
           right. by exists g.
      * intros name v Hv. destruct (Hval name v Hv) as [?|(g & Hg & ? & ? & ?)];
          [by left|]. right. exists g. split; [by right|done].
    + rewrite Hs. simpl.
      destruct (IH (<[Sprint f := VString s]> fields) Hrest) as (out & Hrun & Hdom & Hval).
      exists out. split; [done|]. split.
      * intros name. rewrite Hdom. split.
        -- intros [Hin|(g & Hg & ? & ?)].
           ++ destruct (decide (Sprint f = name)) as [Heq|Hne].
              ** right. exists f. split; [by left|]. split; [done|]. by rewrite Hs.
              ** left. by rewrite lookup_insert_ne in Hin.
           ++ right. exists g. split; [by right|done].
        -- intros [Hin|(g & Hg & Hname & Hne)].
           ++ left. destruct (decide (Sprint f = name)) as [<-|Hne].
              ** rewrite lookup_insert_eq. by eexists.
              ** by rewrite lookup_insert_ne.
           ++ apply elem_of_cons in Hg as [->|Hg].
              ** left. rewrite <- Hname, lookup_insert_eq. by eexists.
              ** right. by exists g.
      * intros name v Hv. destruct (Hval name v Hv) as [Hin|(g & Hg & ? & ? & ?)].
        -- destruct (decide (Sprint f = name)) as [<-|Hne].
           ++ rewrite lookup_insert_eq in Hin. injection Hin as <-.
              right. exists f. split; [by left|]. by rewrite Hs.
           ++ rewrite lookup_insert_ne in Hin by done. by left.
        -- right. exists g. split; [by right|done].
Qed.

Lemma withContext_loop_string_valued (ctx : Ctx) (fs : list Key) (fields out : Fields) :
  string_valued fields ->
  withContext_loop Sprint ctx fs fields = Returns out ->
  string_valued out.
Proof.
  revert fields. induction fs as [|f fs IH]; intros fields Hf; simpl.
  - by intros [= <-].
  - destruct (Value ctx f) eqn:Hv; simpl; try discriminate.
    + by apply IH.
    + apply IH. apply map_Forall_insert_2; [by eexists|done].
Qed.

Lemma string_valued_not_refused (fields : Fields) (k : string) (v : any) :
  string_valued fields -> fields !! k = Some v -> isErrField v = false.
Proof. intros Hf Hv. by destruct (Hf k v Hv) as [s ->]. Qed.

(** Context fields are strings, none of which the backend refuses. *)
Lemma logger_WithFields_Data (fields : Fields) :
  string_valued fields -> Data (logger_WithFields fields) = fields.
Proof.
  intros Hf. unfold logger_WithFields, Entry_WithFields, NewEntry. simpl.
  rewrite (right_id_L ∅ (∪)). apply map_filter_id.
  intros k v Hv. simpl. by apply (string_valued_not_refused fields k).
Qed.

Lemma withContext_loop_Data (ctx : Ctx) (fs : list Key) (out : Fields) :
  withContext_loop Sprint ctx fs ∅ = Returns out ->
  Data (logger_WithFields out) = out.
Proof.
  intros Hrun. apply logger_WithFields_Data.
  apply (withContext_loop_string_valued ctx fs ∅ out); [apply map_Forall_empty|done].
Qed.


(** A registered key whose lookup is neither absent nor a string makes
    the loop panic. *)
Lemma withContext_loop_panics (ctx : Ctx) (fs : list Key) (fields : Fields) (f : Key) :
  f ∈ fs -> Value ctx f <> VNil -> (forall s, Value ctx f <> VString s) ->
  exists msg, withContext_loop Sprint ctx fs fields = Panics msg.
Proof.
  intros Hin Hnn Hns. revert fields.
  induction fs as [|g fs IH]; intros fields; [by apply elem_of_nil in Hin|].
  simpl. apply elem_of_cons in Hin as [<-|Hin].
  - destruct (Value ctx f) eqn:Hv; simpl; try done; try by eexists.
    by destruct (Hns s).
  - destruct (Value ctx g) eqn:Hv; simpl; try by eexists.
    all: by apply IH.
Qed.

End ContextFields.



(** The extraction of the tests: both registered keys are found, the
    key that is not registered is not extracted, the registered key that
    the context lacks gives no entry. *)
Example withContext_test :
  withContext Sprint_string
    (Init JSONFormatter InfoLevel ["requestId"; "userId"; "sessionId"])
    (WithValue testCtx "traceId" (VString "t"))
  = Returns {| Data := <["requestId" := VString "request-id"]>
                         (<["userId" := VString "user-id"]> ∅) |}.
Proof.
  vm_compute. reflexivity.
Qed.

(** ** Entry points *)

Section EntryPoints.

Context {Key : Type} `{EqDecision Key}.
Variable Sprint : Key -> string.
Variable formatFloat : floatkind -> Z -> option string.

(** C10.  A registered key whose context value is non-nil and not of
    type string makes extraction panic at the type assertion; the key
    is neither skipped nor its value converted, and every entry point
    called with that context panics with it. *)
Theorem withContext_non_string_panics (cfg : config) (ctx : Ctx) (f : Key) :
  f ∈ ctxFields cfg ->
  Value ctx f <> VNil ->
  (forall s, Value ctx f <> VString s) ->
  exists msg,
    withContext Sprint cfg ctx = Panics msg
    /\ (forall i flds, Info Sprint cfg ctx i flds = Panics msg)
    /\ (forall format a, Infof Sprint formatFloat cfg ctx format a = Panics msg)
    /\ (forall w flds, Warn Sprint cfg ctx w flds = Panics msg)
    /\ (forall format a, Warnf Sprint formatFloat cfg ctx format a = Panics msg)
    /\ (forall e flds, Error Sprint cfg ctx e flds = Panics msg)
    /\ (forall format a, Errorf Sprint formatFloat cfg ctx format a = Panics msg)
    /\ (forall d flds, Debug Sprint cfg ctx d flds = Panics msg)
    /\ (forall format a, Debugf Sprint formatFloat cfg ctx format a = Panics msg)
    /\ (forall err, Fatal Sprint cfg ctx err = Panics msg)
    /\ (forall format args, Fatalf Sprint cfg ctx format args = Panics msg).
Proof.
  intros Hin Hnn Hns.
  destruct (withContext_loop_panics Sprint ctx (ctxFields cfg) ∅ f Hin Hnn Hns)
    as [msg Hmsg].
  assert (Hw : withContext Sprint cfg ctx = Panics msg).
  { unfold withContext. by rewrite Hmsg. }
  exists msg. split; [exact Hw|].
  unfold Info, Infof, Warn, Warnf, Error, Errorf, Debug, Debugf, Fatal, Fatalf.
  rewrite Hw. by repeat split.
Qed.

Lemma fold_apply_lookup (flds : list fld) (base : Fields) (k : string) :
  fold_left (fun fields f => apply f fields) flds base !! k
  = match last (filter (fun f => key f = k) flds) with
    | Some f => Some (value f)
    | None => base !! k
    end.
Proof.
  revert base. induction flds as [|f flds IH]; intros base; simpl; [done|].
  rewrite IH. rewrite filter_cons. unfold apply.
  destruct (decide (key f = k)) as [<-|Hne].
  - rewrite last_cons, lookup_insert_eq.
    by destruct (last (filter (fun g => key g = key f) flds)).
  - by rewrite lookup_insert_ne.
Qed.

(** What [withFields] leaves under a key: the last explicit field of
    that key decides, and when the backend refuses its value, or when
    there is none, the entry keeps what it had. *)
Lemma withFields_lookup (entry : Entry) (flds : list fld) (k : string) :
  Data (withFields entry flds) !! k
  = match last (filter (fun f => key f = k) flds) with
    | Some f => if isErrField (value f) then Data entry !! k else Some (value f)
    | None => Data entry !! k
    end.
Proof.
  unfold withFields, Entry_WithFields. simpl.
  pose proof (fold_apply_lookup flds ∅ k) as HF. rewrite lookup_empty in HF.
  destruct (last (filter (fun f => key f = k) flds)) as [f|].
  - destruct (isErrField (value f)) eqn:He.
    + rewrite lookup_union_r; [done|]. apply map_lookup_filter_None. right.
      intros v Hv. rewrite HF in Hv. injection Hv as <-. simpl. by rewrite He.
    + apply lookup_union_Some_l. by apply map_lookup_filter_Some.
  - rewrite lookup_union_r; [done|]. apply map_lookup_filter_None. by left.
Qed.

Lemma last_filter_elem_of (P : fld -> Prop) `{forall f, Decision (P f)}
    (flds : list fld) (f : fld) :
  last (filter P flds) = Some f -> f ∈ flds /\ P f.
Proof.
  intros Hl. apply last_Some in Hl as [l' Hl'].
  assert (Hin : f ∈ filter P flds) by (rewrite Hl'; set_solver).
  by apply list_elem_of_filter in Hin as [? ?].
Qed.

(** Fields the backend accepts are written over the entry's data in
    the order given. *)
Lemma withFields_Data (entry : Entry) (flds : list fld) :
  Forall (fun f => isErrField (value f) = false) flds ->
  Data (withFields entry flds)
  = fold_left (fun fields f => apply f fields) flds (Data entry).
Proof.
  intros Hok. apply map_eq. intros k.
  rewrite withFields_lookup, fold_apply_lookup.
  destruct (last (filter (fun f => key f = k) flds)) as [f|] eqn:Hl; [|done].
  apply last_filter_elem_of in Hl as [Hf _].
  rewrite Forall_forall in Hok. by rewrite (Hok f Hf).
Qed.

Lemma withFields_nil (entry : Entry) : withFields entry [] = entry.
Proof.
  destruct entry as [data]. unfold withFields, Entry_WithFields. simpl. f_equal.
  by rewrite map_filter_empty, (left_id_L ∅ (∪)).
Qed.

(** C5 as the code has it.  In [Info], [Warn], [Error] and [Debug] the
    fields handed to the backend are the context-derived fields with the
    explicit fields written over them: under a key that an explicit
    field names, the value is that of the last such field, whatever the
    context gave, unless that value is a function or a pointer to a
    function, which the backend refuses, so that the key keeps what the
    context gave; under any other key the value is the context's.  When
    no explicit value is refused, the fields are the context's with the
    explicit ones written over them in the order given. *)
Theorem explicit_fields_win (cfg : config) (ctx : Ctx) (flds : list fld) (e : Entry) :
  withContext Sprint cfg ctx = Returns e ->
  exists final,
    (forall i, Info Sprint cfg ctx i flds
               = Returns {| r_level := InfoLevel; r_data := final; r_payload := Plain i |})
    /\ (forall i, Warn Sprint cfg ctx i flds
                  = Returns {| r_level := WarnLevel; r_data := final; r_payload := Plain i |})
    /\ (forall i, Error Sprint cfg ctx i flds
                  = Returns {| r_level := ErrorLevel; r_data := final; r_payload := Plain i |})
    /\ (forall i, Debug Sprint cfg ctx i flds
                  = Returns {| r_level := DebugLevel; r_data := final; r_payload := Plain i |})
    /\ (forall k, final !! k
                  = match last (filter (fun f => key f = k) flds) with
                    | Some f =>
                        if isErrField (value f) then Data e !! k else Some (value f)
                    | None => Data e !! k
                    end)
    /\ (Forall (fun f => isErrField (value f) = false) flds ->
        final = fold_left (fun fields f => apply f fields) flds (Data e)).
Proof.
  intros He. exists (Data (withFields e flds)).
  unfold Info, Warn, Error, Debug, Entry_Log. rewrite He.
  unfold mbind, outcome_bind, mret, outcome_ret.
  repeat split; try done.
  - intros k. apply withFields_lookup.
  - apply withFields_Data.
Qed.

(** The four formatted entry points normalise their arguments. *)
Lemma formatted_calls_normalize (cfg : config) (ctx : Ctx) (format : string)
    (a : slice any) (e : Entry) :
  withContext Sprint cfg ctx = Returns e ->
  Debugf Sprint formatFloat cfg ctx format a
    = Returns (Entry_Logf e DebugLevel format (normalizeArgs formatFloat a))
  /\ Infof Sprint formatFloat cfg ctx format a
    = Returns (Entry_Logf e InfoLevel format (normalizeArgs formatFloat a))
  /\ Warnf Sprint formatFloat cfg ctx format a
    = Returns (Entry_Logf e WarnLevel format (normalizeArgs formatFloat a))
  /\ Errorf Sprint formatFloat cfg ctx format a
    = Returns (Entry_Logf e ErrorLevel format (normalizeArgs formatFloat a)).
Proof.
  intros He. unfold Debugf, Infof, Warnf, Errorf. by rewrite He.
Qed.

(** [Fatalf] hands over its arguments as they came. *)
Lemma Fatalf_raw (cfg : config) (ctx : Ctx) (format : string) (args : slice any) (e : Entry) :
  withContext Sprint cfg ctx = Returns e ->
  Fatalf Sprint cfg ctx format args = Returns (Entry_Logf e FatalLevel format args).
Proof. intros He. unfold Fatalf. by rewrite He. Qed.

End EntryPoints.

Lemma withContext_non_string_panics_witness :
  exists msg,
    withContext Sprint_string testCfg (WithValue testCtx "userId" (VInt KInt 42)) = Panics msg
    /\ forall format a,
         Infof Sprint_string no_floats testCfg (WithValue testCtx "userId" (VInt KInt 42))
           format a = Panics msg.
Proof.
  destruct (withContext_non_string_panics Sprint_string no_floats testCfg
              (WithValue testCtx "userId" (VInt KInt 42)) "userId")
    as (msg & Hw & _ & Hf & _).
  - simpl. set_solver.
  - discriminate.
  - discriminate.
  - by exists msg.
Defined.

Lemma explicit_fields_win_witness :
  exists final,
    (Info Sprint_string testCfg testCtx (VString "Informational Message 2")
       [Field "userId" (VString "explicit"); Field "field1" (VString "value1")])
    = Returns {| r_level := InfoLevel; r_data := final;
                 r_payload := Plain (VString "Informational Message 2") |}
    /\ final !! "userId" = Some (VString "explicit")
    /\ final !! "requestId" = Some (VString "request-id").
Proof.
  destruct (explicit_fields_win Sprint_string testCfg testCtx
              [Field "userId" (VString "explicit"); Field "field1" (VString "value1")]
              {| Data := <["requestId" := VString "request-id"]>
                           (<["userId" := VString "user-id"]> ∅) |})
    as (final & Hinfo & _ & _ & _ & Hlook & _).
  - vm_compute. reflexivity.
  - exists final. split; [apply Hinfo|]. split; rewrite Hlook; reflexivity.
Defined.

(** C5, an explicit field whose value is a function: the backend does
    not write it, and the key keeps the value the context gave. *)
Lemma explicit_func_field_loses :
  exists final,
    (Info Sprint_string testCfg testCtx (VString "Informational Message 2")
       [Field "userId" (VFunc 0)])
    = Returns {| r_level := InfoLevel; r_data := final;
                 r_payload := Plain (VString "Informational Message 2") |}
    /\ final !! "userId" = Some (VString "user-id")
    /\ final !! "userId" <> Some (value (Field "userId" (VFunc 0))).
Proof.
  eexists. split; [reflexivity|]. split; [by vm_compute|].
  vm_compute. discriminate.
Qed.

(** C7 on the code.  With the map of the tests as the only argument,
    [Debugf], [Infof], [Warnf] and [Errorf] hand its JSON encoding to the
    backend, and [Fatalf] hands over the map itself. *)
Theorem Fatalf_skips_normalizeArgs :
  let a := mk_slice [testMap] in
  let e := {| Data := <["requestId" := VString "request-id"]>
                        (<["userId" := VString "user-id"]> ∅) |} in
  Debugf Sprint_string no_floats testCfg testCtx "%v" a
    = Returns (Entry_Logf e DebugLevel "%v" (mk_slice [VString testJSONResult]))
  /\ Infof Sprint_string no_floats testCfg testCtx "%v" a
    = Returns (Entry_Logf e InfoLevel "%v" (mk_slice [VString testJSONResult]))
  /\ Warnf Sprint_string no_floats testCfg testCtx "%v" a
    = Returns (Entry_Logf e WarnLevel "%v" (mk_slice [VString testJSONResult]))
  /\ Errorf Sprint_string no_floats testCfg testCtx "%v" a
    = Returns (Entry_Logf e ErrorLevel "%v" (mk_slice [VString testJSONResult]))
  /\ Fatalf Sprint_string testCfg testCtx "%v" a
    = Returns (Entry_Logf e FatalLevel "%v" (mk_slice [testMap]))
  /\ normalizeArgs no_floats a <> a.
Proof.
  repeat split; try (vm_compute; reflexivity).
  discriminate.
Qed.

(** * Further properties of the code *)

(** ** The normaliser as a function on slices *)

Lemma normalized_passthrough ff i : case_passthrough (normalized ff i) = true.
Proof. unfold normalized. by destruct (case_passthrough i) eqn:Hp. Qed.

Lemma normalized_idem ff i : normalized ff (normalized ff i) = normalized ff i.
Proof. apply passthrough_normalized, normalized_passthrough. Qed.

(** Normalising twice is normalising once: the output of
    [normalizeArgs] is a fixed point of it, nil slice included. *)
Theorem normalizeArgs_idempotent ff (a : slice any) :
  normalizeArgs ff (normalizeArgs ff a) = normalizeArgs ff a.
Proof.
  destruct (elems a) as [|x l] eqn:Ha.
  - rewrite (normalizeArgs_empty ff a Ha). reflexivity.
  - rewrite (normalizeArgs_nonempty ff a x l Ha).
    rewrite (normalizeArgs_nonempty ff _ (normalized ff x) (map (normalized ff) l))
      by reflexivity.
    f_equal. simpl. rewrite normalized_idem. f_equal.
    rewrite map_map. apply map_ext. intros y. apply normalized_idem.
Qed.

(** Every element of the output is of a class the type switch passes
    through, and is either an element of the input or a string: what the
    backend's format verbs receive is never a raw map, struct, slice or
    pointer without a [String] or [Error] method. *)
Theorem normalizeArgs_output_classes ff (a : slice any) :
  Forall (fun x => case_passthrough x = true /\ (x ∈ elems a \/ exists s, x = VString s))
         (elems (normalizeArgs ff a)).
Proof.
  rewrite normalizeArgs_elems. apply Forall_forall. intros x Hx.
  apply list_elem_of_fmap in Hx as (i & -> & Hi).
  split; [apply normalized_passthrough|].
  unfold normalized. destruct (case_passthrough i); [by left|right; by eexists].
Qed.

(** Normalising a slice with one more element appended is appending
    the normalised element to the normalised slice. *)
Theorem normalizeArgs_append ff (a : slice any) (x : any) :
  normalizeArgs ff (append a x) = append (normalizeArgs ff a) (normalized ff x).
Proof.
  apply slice_eq.
  - unfold normalizeArgs at 1. simpl.
    destruct (elems a ++ [x]) as [|y l] eqn:Hl.
    + by destruct (elems a).
    + simpl. apply normalizeArgs_loop_allocated, normalizeArgs_step_allocates.
  - simpl. rewrite !normalizeArgs_elems. simpl. by rewrite map_app.
Qed.

(** The result is the nil slice exactly when the input has no element;
    any element makes the result a non-nil slice. *)
Theorem normalizeArgs_nil_iff ff (a : slice any) :
  is_nil (normalizeArgs ff a) = true <-> len a = 0%nat.
Proof.
  unfold len. destruct (elems a) as [|x l] eqn:Ha.
  - by rewrite (normalizeArgs_empty ff a Ha).
  - by rewrite (normalizeArgs_nonempty ff a x l Ha).
Qed.

(** ** What [jsonString] returns *)

Lemma string_of_uint_nonempty d : d <> Decimal.Nil -> NilEmpty.string_of_uint d <> "".
Proof. by destruct d. Qed.

Lemma itoa_nonempty n : json.itoa n <> "".
Proof.
  unfold json.itoa, NilZero.string_of_int, NilZero.string_of_uint.
  destruct (Z.to_int n) as [d|d]; [|done]. by destruct d.
Qed.

Lemma encode_nonempty ff :
  (forall k bits, ff k bits <> Some "") ->
  forall v s, json.encode ff v = Ok s -> s <> "".
Proof.
  intros Hff. induction v as [|b|s0|k n|k bits|re im|c|f|k|l|m|fs|v IH|t ms v IH];
    intros s; simpl; try discriminate.
  - by intros [= <-].
  - intros [= <-]. by destruct b.
  - by intros [= <-].
  - intros [= <-]. apply itoa_nonempty.
  - destruct (ff k bits) as [s'|] eqn:Hs; [|discriminate].
    intros [= <-] ->. by apply (Hff k bits).
  - destruct k; try discriminate; by intros [= <-].
  - destruct (json.each (json.encode ff) l); [|discriminate]. by intros [= <-].
  - destruct (json.each_entry (json.encode ff) (fun _ => true) m); [|discriminate].
    by intros [= <-].
  - destruct (json.each_entry (json.encode ff) json.exported fs); [|discriminate].
    by intros [= <-].
  - apply IH.
  - apply IH.
Qed.

(** The empty string is returned exactly when the encoder fails: no
    value encodes to the empty string, so a caller can tell a failure
    from the result.  (The float formatter is taken not to print the
    empty string.) *)
Theorem jsonString_empty_iff_error ff (v : any) :
  (forall k bits, ff k bits <> Some "") ->
  jsonString ff v = "" <-> exists e, json.Marshal ff v = Err e.
Proof.
  intros Hff. unfold jsonString, json.Marshal.
  destruct (json.encode ff v) as [s|e] eqn:Hv.
  - split.
    + intros ->. by destruct (encode_nonempty ff Hff v "" Hv).
    + by intros [e [=]].
  - split; [by eexists|done].
Qed.

Lemma jsonString_empty_iff_error_witness :
  jsonString no_floats (VSlice [VInt KInt 1; VFunc 0]) = ""
  <-> exists e, json.Marshal no_floats (VSlice [VInt KInt 1; VFunc 0]) = Err e.
Proof.
  apply (jsonString_empty_iff_error no_floats (VSlice [VInt KInt 1; VFunc 0])).
  discriminate.
Defined.

Lemma bytes_String c s : bytes (String c s) = N_of_ascii c :: bytes s.
Proof. reflexivity. Qed.

Lemma bytes_app a b : bytes (a +:+ b) = bytes a ++ bytes b.
Proof.
  induction a as [|c a IH]; [done|].
  change (String c a +:+ b) with (String c (a +:+ b)).
  by rewrite !bytes_String, IH.
Qed.

Lemma no_control_app a b : no_control (a +:+ b) <-> no_control a /\ no_control b.
Proof. unfold no_control. rewrite bytes_app. apply Forall_app. Qed.

Lemma no_control_String c s :
  no_control (String c s) <-> (32 <= N_of_ascii c)%N /\ no_control s.
Proof. unfold no_control. rewrite bytes_String. apply Forall_cons. Qed.

Lemma no_control_empty : no_control "".
Proof. constructor. Qed.

Lemma hex_digit_no_control n : (32 <= N_of_ascii (json.hex_digit n))%N.
Proof.
  destruct n as [|p]; [by vm_compute|].
  do 4 (try destruct p as [p|p|]); by vm_compute.
Qed.

Lemma escape_ascii_no_control c : no_control (json.escape_ascii c).
Proof.
  unfold json.escape_ascii.
  destruct (json.htmlSafe (json.byte_of c)) eqn:Hs.
  { apply no_control_String. split; [|constructor].
    unfold json.htmlSafe in Hs. rewrite !andb_true_iff in Hs.
    destruct Hs as [[[[[[H _] _] _] _] _] _]. by apply N.leb_le. }
  destruct (N.eqb (json.byte_of c) 92 || N.eqb (json.byte_of c) 34)%bool eqn:Hq.
  { apply orb_true_iff in Hq. rewrite !N.eqb_eq in Hq. unfold json.byte_of in Hq.
    rewrite !no_control_String. repeat split; [done| |constructor].
    destruct Hq as [-> | ->]; done. }
  repeat match goal with
  | |- context [if ?b then _ else _] =>
      destruct b; [apply (bool_decide_unpack _); vm_compute; exact I|]
  end.
  rewrite no_control_app, !no_control_String.
  repeat split; try apply hex_digit_no_control; try constructor.
  all: by vm_compute.
Qed.

Lemma in_range_ge lo hi c : json.in_range lo hi c = true -> (lo <= json.byte_of c)%N.
Proof. unfold json.in_range. intros [H _]%andb_true_iff. by apply N.leb_le. Qed.

Ltac split_bools :=
  repeat match goal with
  | H : (_ && _)%bool = true |- _ => apply andb_true_iff in H as [? ?]
  | H : (_ || _)%bool = true |- _ => apply orb_true_iff in H as [?|?]
  | H : json.cont _ = true |- _ => apply in_range_ge in H
  | H : json.in_range _ _ _ = true |- _ => apply in_range_ge in H
  end.

Lemma escape_String b0 r1 :
  json.escape (String b0 r1)
  = if N.ltb (json.byte_of b0) 128 then json.escape_ascii b0 +:+ json.escape r1
    else
      match json.utf8_width (String b0 r1), r1 with
      | 2%nat, String b1 r2 => String b0 (String b1 (json.escape r2))
      | 3%nat, String b1 (String b2 r3) =>
          if (N.eqb (json.byte_of b0) 226 && N.eqb (json.byte_of b1) 128
              && json.in_range 168 169 b2)%bool
          then "\u202" +:+ String (json.hex_digit (N.land (json.byte_of b2) 15)) (json.escape r3)
          else String b0 (String b1 (String b2 (json.escape r3)))
      | 4%nat, String b1 (String b2 (String b3 r4)) =>
          String b0 (String b1 (String b2 (String b3 (json.escape r4))))
      | _, _ => "\ufffd" +:+ json.escape r1
      end.
Proof. reflexivity. Qed.

Lemma escape_no_control_bounded (n : nat) :
  forall s, (String.length s <= n)%nat -> no_control (json.escape s).
Proof.
  induction n as [|n IH]; intros [|b0 r1] Hlen; simpl in Hlen; try lia;
    try apply no_control_empty.
  rewrite escape_String.
  destruct (N.ltb_spec (json.byte_of b0) 128) as [Hlo|Hhi].
  { apply no_control_app. split; [apply escape_ascii_no_control|apply IH; lia]. }
  assert (Hbad : no_control ("\ufffd" +:+ json.escape r1)).
  { apply no_control_app. split; [|apply IH; lia].
    apply (bool_decide_unpack _). vm_compute. exact I. }
  unfold json.byte_of in Hhi.
  destruct r1 as [|b1 r2]; [exact Hbad|].
  unfold json.utf8_width.
  destruct (json.in_range 194 223 b0 && json.cont b1)%bool eqn:H2.
  { split_bools. unfold json.byte_of in *.
    rewrite !no_control_String. repeat split; try lia.
    apply IH. simpl in Hlen. lia. }
  destruct r2 as [|b2 r3]; [exact Hbad|].
  match goal with |- context [if (?c && json.cont b2)%bool then _ else _] =>
    destruct (c && json.cont b2)%bool eqn:H3 end.
  { assert (Hr3 : no_control (json.escape r3)) by (apply IH; simpl in Hlen; lia).
    split_bools; unfold json.byte_of in *;
      match goal with |- context [if ?c then _ else _] => destruct c end;
      rewrite ?no_control_app, ?no_control_String;
      repeat split; try lia; try apply hex_digit_no_control; try done;
      by vm_compute. }
  destruct r3 as [|b3 r4]; [exact Hbad|].
  match goal with |- context [if ?c then 4%nat else _] => destruct c eqn:H4 end;
    [|exact Hbad].
  assert (Hr4 : no_control (json.escape r4)) by (apply IH; simpl in Hlen; lia).
  split_bools; unfold json.byte_of in *;
    rewrite !no_control_String; repeat split; try lia; done.
Qed.

Lemma escape_no_control s : no_control (json.escape s).
Proof. by apply (escape_no_control_bounded (String.length s)). Qed.

Lemma appendString_no_control s : no_control (json.appendString s).
Proof.
  unfold json.appendString. rewrite no_control_String, no_control_app, no_control_String.
  split; [by vm_compute|]. split; [apply escape_no_control|].
  split; [by vm_compute|constructor].
Qed.

Lemma string_of_uint_no_control d : no_control (NilEmpty.string_of_uint d).
Proof.
  induction d; simpl; [constructor|..];
    apply no_control_String; (split; [by vm_compute|done]).
Qed.

Lemma itoa_no_control n : no_control (json.itoa n).
Proof.
  unfold json.itoa, NilZero.string_of_int, NilZero.string_of_uint.
  destruct (Z.to_int n) as [d|d].
  - destruct d; try apply string_of_uint_no_control.
    apply (bool_decide_unpack _). vm_compute. exact I.
  - apply no_control_String. split; [by vm_compute|].
    destruct d; try apply string_of_uint_no_control.
    apply (bool_decide_unpack _). vm_compute. exact I.
Qed.

Lemma join_no_control sep l :
  no_control sep -> Forall no_control l -> no_control (json.join sep l).
Proof.
  intros Hsep. induction 1 as [|x l Hx Hl IH]; [constructor|].
  simpl. destruct l as [|y l]; [done|].
  rewrite !no_control_app. by repeat split.
Qed.

Lemma comma_no_control : no_control ",".
Proof. apply (bool_decide_unpack _). vm_compute. exact I. Qed.

Lemma array_no_control ss : Forall no_control ss -> no_control (json.array ss).
Proof.
  intros Hss. unfold json.array. rewrite !no_control_app.
  split; [by apply (bool_decide_unpack _)|].
  split; [|by apply (bool_decide_unpack _)].
  by apply join_no_control; [apply comma_no_control|].
Qed.

Lemma object_no_control es :
  Forall (fun e => no_control e.2) es -> no_control (json.object es).
Proof.
  intros Hes. unfold json.object. rewrite !no_control_app.
  split; [by apply (bool_decide_unpack _)|].
  split; [|by apply (bool_decide_unpack _)].
  apply join_no_control; [apply comma_no_control|].
  apply Forall_fmap. eapply Forall_impl; [exact Hes|].
  intros [k v] Hv. unfold json.member. simpl. rewrite !no_control_app.
  repeat split; [apply appendString_no_control| |done].
  apply (bool_decide_unpack _). vm_compute. exact I.
Qed.

(** Induction on values, through the lists of slices, maps and
    structs. *)
Lemma any_nested_ind (P : any -> Prop) :
  (forall v, (forall l, v <> VSlice l) -> (forall m, v <> VMap m) ->
             (forall fs, v <> VStruct fs) -> (forall w, v <> VPtr w) ->
             (forall t ms w, v <> VNamed t ms w) -> P v) ->
  (forall l, Forall P l -> P (VSlice l)) ->
  (forall m, Forall (fun kv => P kv.2) m -> P (VMap m)) ->
  (forall fs, Forall (fun kv => P kv.2) fs -> P (VStruct fs)) ->
  (forall v, P v -> P (VPtr v)) ->
  (forall t ms v, P v -> P (VNamed t ms v)) ->
  forall v, P v.
Proof.
  intros Hleaf Hslice Hmap Hstruct Hptr Hnamed.
  fix IH 1. intros v.
  destruct v as [|b|s0|k n|k bits|re im|c|f|k|l|m|fs|v|t ms v];
    try (apply Hleaf; intros; discriminate).
  - apply Hslice. induction l as [|x l IHl]; constructor; [apply IH|exact IHl].
  - apply Hmap. induction m as [|[k x] m IHm]; constructor; [apply IH|exact IHm].
  - apply Hstruct. induction fs as [|[k x] fs IHfs]; constructor; [apply IH|exact IHfs].
  - apply Hptr, IH.
  - apply Hnamed, IH.
Qed.

Lemma each_Forall (enc : any -> result string) (Q : string -> Prop) l ss :
  Forall (fun x => forall s, enc x = Ok s -> Q s) l ->
  json.each enc l = Ok ss -> Forall Q ss.
Proof.
  intros Hl. revert ss. induction Hl as [|x l Hx Hl IH]; intros ss; simpl.
  - intros [= <-]. constructor.
  - destruct (enc x) as [s|] eqn:Hex; [|discriminate].
    destruct (json.each enc l) as [ss'|]; [|discriminate].
    intros [= <-]. constructor; [by apply Hx|by apply IH].
Qed.

Lemma each_entry_Forall (enc : any -> result string) keep (Q : string -> Prop) m es :
  Forall (fun kv => forall s, enc kv.2 = Ok s -> Q s) m ->
  json.each_entry enc keep m = Ok es -> Forall (fun e => Q e.2) es.
Proof.
  intros Hm. revert es. induction Hm as [|[k x] m Hx Hm IH]; intros es; simpl.
  - intros [= <-]. constructor.
  - simpl in Hx. destruct (keep k); [|apply IH].
    destruct (enc x) as [s|] eqn:Hex; [|discriminate].
    destruct (json.each_entry enc keep m) as [es'|]; [|discriminate].
    intros [= <-]. constructor; [by apply Hx|by apply IH].
Qed.

Lemma encode_no_control ff :
  (forall k bits s, ff k bits = Some s -> no_control s) ->
  forall v s, json.encode ff v = Ok s -> no_control s.
Proof.
  intros Hff v. induction v as [v Hs Hm Hfs Hp Hn|l IH|m IH|fs IH|v IH|t ms v IH]
    using any_nested_ind; intros s; simpl.
  - destruct v as [|b|s0|k n|k bits|re im|c|f|k|l|m|fs|v|t ms v]; simpl;
      try discriminate.
    + intros [= <-]. apply (bool_decide_unpack _). vm_compute. exact I.
    + intros [= <-]. destruct b; apply (bool_decide_unpack _); vm_compute; exact I.
    + intros [= <-]. apply appendString_no_control.
    + intros [= <-]. apply itoa_no_control.
    + destruct (ff k bits) as [s'|] eqn:Hs'; [|discriminate].
      intros [= <-]. by apply (Hff k bits).
    + destruct k; try discriminate; intros [= <-];
        apply (bool_decide_unpack _); vm_compute; exact I.
    + by destruct (Hs l).
    + by destruct (Hm m).
    + by destruct (Hfs fs).
    + by destruct (Hp v).
    + by destruct (Hn t ms v).
  - destruct (json.each (json.encode ff) l) as [ss|] eqn:Hss; [|discriminate].
    intros [= <-]. apply array_no_control. by eapply each_Forall.
  - destruct (json.each_entry (json.encode ff) (fun _ => true) m) as [es|] eqn:Hes;
      [|discriminate].
    intros [= <-]. apply object_no_control.
    rewrite sort_by_key_perm. by eapply each_entry_Forall.
  - destruct (json.each_entry (json.encode ff) json.exported fs) as [es|] eqn:Hes;
      [|discriminate].
    intros [= <-]. apply object_no_control. by eapply each_entry_Forall.
  - apply IH.
  - apply IH.
Qed.

(** Whatever the value, the string [jsonString] returns holds no
    control character: no byte below the space, so no line feed, carriage
    return or tab.  (The float formatter is taken to print none.) *)
Theorem jsonString_no_control ff (v : any) :
  (forall k bits s, ff k bits = Some s -> no_control s) ->
  no_control (jsonString ff v).
Proof.
  intros Hff. unfold jsonString, json.Marshal.
  destruct (json.encode ff v) as [s|e] eqn:Hv; [|constructor].
  by apply (encode_no_control ff Hff v).
Qed.

Lemma jsonString_no_control_witness :
  no_control (jsonString no_floats
                (VMap [("k", VString (String (ascii_of_N 10) "x")); ("j", VSlice [VNil])])).
Proof.
  apply (jsonString_no_control no_floats). discriminate.
Defined.

(** ** Fields and their merge *)

(** A field never holds an error value: after [Field] the value has no
    [Error] method, so making a field of a field's value changes
    nothing; the key is the one given. *)
Theorem Field_holds_no_error (k : string) (v : any) :
  key (Field k v) = k
  /\ m_Error (method_set (value (Field k v))) = None
  /\ Field k (value (Field k v)) = Field k v.
Proof.
  unfold Field. destruct (m_Error (method_set v)) as [msg|] eqn:Hv; simpl.
  - done.
  - by rewrite Hv.
Qed.




(** A refused value in the second step is where the two differ: in two
    steps the first value stays, in one step it is overwritten before
    the backend sees the fields and then refused. *)
Example withFields_refused_second :
  Data (withFields (withFields NewEntry [Field "k" (VString "v")]) [Field "k" (VFunc 0)])
    !! "k" = Some (VString "v")
  /\ Data (withFields NewEntry ([Field "k" (VString "v")] ++ [Field "k" (VFunc 0)]))
    !! "k" = None.
Proof. split; by vm_compute. Qed.

(** A key is among the merged fields exactly when the entry had it or
    the last explicit field of that key has a value the backend accepts:
    no key of the entry is lost and none is invented. *)
Theorem withFields_keys (entry : Entry) (flds : list fld) (k : string) :
  k ∈ dom (Data (withFields entry flds))
  <-> k ∈ dom (Data entry)
      \/ exists f, last (filter (fun f => key f = k) flds) = Some f
                   /\ isErrField (value f) = false.
Proof.
  rewrite !elem_of_dom, withFields_lookup.
  destruct (last (filter (fun f => key f = k) flds)) as [f|].
  - destruct (isErrField (value f)) eqn:He.
    + split; [by left|]. intros [?|(g & [= <-] & Hg)]; [done|congruence].
    + split; [|by eexists]. intros _. right. by exists f.
  - split; [by left|]. by intros [?|(g & [=] & _)].
Qed.

(** ** Context extraction, further *)

Section ContextFieldsMore.

Context {Key : Type} `{EqDecision Key}.
Variable Sprint : Key -> string.

(** Whenever extraction returns, every value of the mapping is a
    string: the context never contributes a field of another type. *)
Theorem withContext_string_valued (cfg : config) (ctx : Ctx) (e : Entry) :
  withContext Sprint cfg ctx = Returns e ->
  forall name v, Data e !! name = Some v -> exists s, v = VString s.
Proof.
  unfold withContext.
  destruct (withContext_loop Sprint ctx (ctxFields cfg) ∅) as [out|] eqn:Hrun;
    [|discriminate].
  intros [= <-] name v.
  rewrite (withContext_loop_Data Sprint ctx (ctxFields cfg) out Hrun).
  apply (withContext_loop_string_valued Sprint ctx (ctxFields cfg) ∅ out); [|done].
  apply map_Forall_empty.
Qed.

Lemma withContext_loop_panics_inv (ctx : Ctx) (fs : list Key) (fields : Fields) msg :
  withContext_loop Sprint ctx fs fields = Panics msg ->
  msg = "interface conversion: interface {} is not string"
  /\ exists f, f ∈ fs /\ Value ctx f <> VNil /\ forall s, Value ctx f <> VString s.
Proof.
  revert fields. induction fs as [|f fs IH]; intros fields; simpl; [discriminate|].
  destruct (Value ctx f) eqn:Hv; simpl;
    try (intros [= <-]; split; [done|]; exists f; rewrite Hv;
         split; [by left|]; split; [done|]; intros; discriminate).
  - intros [Hm (g & Hg & Hg')]%IH. split; [done|]. exists g. split; [by right|done].
  - intros [Hm (g & Hg & Hg')]%IH. split; [done|]. exists g. split; [by right|done].
Qed.

(** Extraction panics exactly when some registered key has a context
    value that is neither absent nor a string; what the context holds
    under keys that are not registered never matters. *)
Theorem withContext_panics_iff (cfg : config) (ctx : Ctx) :
  (exists msg, withContext Sprint cfg ctx = Panics msg)
  <-> exists f, f ∈ ctxFields cfg /\ Value ctx f <> VNil
                /\ forall s, Value ctx f <> VString s.
Proof.
  split.
  - intros [msg Hmsg]. unfold withContext in Hmsg.
    destruct (withContext_loop Sprint ctx (ctxFields cfg) ∅) as [out|msg'] eqn:Hrun;
      [discriminate|].
    by destruct (withContext_loop_panics_inv ctx (ctxFields cfg) ∅ msg' Hrun).
  - intros (f & Hin & Hnn & Hns).
    destruct (withContext_loop_panics Sprint ctx (ctxFields cfg) ∅ f Hin Hnn Hns)
      as [msg Hmsg].
    exists msg. unfold withContext. by rewrite Hmsg.
Qed.

End ContextFieldsMore.

Lemma withContext_string_valued_witness :
  withContext Sprint_string testCfg testCtx
  = Returns {| Data := <["requestId" := VString "request-id"]>
                         (<["userId" := VString "user-id"]> ∅) |}
  /\ exists s, VString "user-id" = VString s.
Proof.
  assert (Hrun : withContext Sprint_string testCfg testCtx
                 = Returns {| Data := <["requestId" := VString "request-id"]>
                                        (<["userId" := VString "user-id"]> ∅) |}).
  { vm_compute. reflexivity. }
  split; [exact Hrun|].
  apply (withContext_string_valued Sprint_string testCfg testCtx _ Hrun "userId").
  vm_compute. reflexivity.
Defined.

Section KeyOrder.

Context {Key : Type} `{EqDecision Key}.
Variable Sprint : Key -> string.

Lemma bad_value_spec v : bad_value v = true <-> v <> VNil /\ forall s, v <> VString s.
Proof.
  destruct v; simpl; split; try done; try (intros [? ?]; congruence).
Qed.

Lemma not_bad_value v : bad_value v = false -> v = VNil \/ exists s, v = VString s.
Proof. destruct v; simpl; try done; [by left|right; by eexists]. Qed.

Lemma withContext_loop_injective (ctx : Ctx) (fs : list Key) (out : Fields) :
  (forall f, f ∈ fs -> nil_or_string ctx f) ->
  (forall f g, f ∈ fs -> g ∈ fs -> Sprint f = Sprint g -> f = g) ->
  withContext_loop Sprint ctx fs ∅ = Returns out ->
  forall name v,
    out !! name = Some v
    <-> exists f, f ∈ fs /\ Sprint f = name /\ Value ctx f = v /\ v <> VNil.
Proof.
  intros Hok Hinj Hrun name v.
  destruct (withContext_loop_strings Sprint ctx fs ∅ Hok) as (out' & Hrun' & Hdom & Hval).
  rewrite Hrun in Hrun'. injection Hrun' as <-.
  split.
  - intros Hv. destruct (Hval name v Hv) as [Hin|?]; [|done].
    by rewrite lookup_empty in Hin.
  - intros (f & Hf & Hname & Hv & Hnn).
    assert (Hsome : is_Some (out !! name)).
    { apply Hdom. right. exists f. by rewrite Hv. }
    destruct Hsome as [v' Hv'].
    destruct (Hval name v' Hv') as [Hin|(g & Hg & Hgname & Hgv & _)].
    { by rewrite lookup_empty in Hin. }
    assert (g = f) as -> by (apply Hinj; congruence).
    congruence.
Qed.

(** When distinct registered keys print differently, whether
    extraction panics, and the mapping it returns when it does not,
    depend only on which keys are registered: neither their order nor a
    repetition shows.  The other settings of [Init] play no part. *)
Theorem withContext_key_order (fmt fmt' : Formatter) (lvl lvl' : Level)
    (fs fs' : list Key) (ctx : Ctx) :
  (forall f, f ∈ fs <-> f ∈ fs') ->
  (forall f g, f ∈ fs -> g ∈ fs -> Sprint f = Sprint g -> f = g) ->
  (forall e, withContext Sprint (Init fmt lvl fs) ctx = Returns e
             <-> withContext Sprint (Init fmt' lvl' fs') ctx = Returns e)
  /\ ((exists msg, withContext Sprint (Init fmt lvl fs) ctx = Panics msg)
      <-> exists msg, withContext Sprint (Init fmt' lvl' fs') ctx = Panics msg).
Proof.
  intros Hsame Hinj. unfold withContext. simpl.
  destruct (decide (Exists (fun f => bad_value (Value ctx f) = true) fs)) as [Hbad|Hgood].
  - apply Exists_exists in Hbad as (f & Hf & [Hnn Hns]%bad_value_spec).
    destruct (withContext_loop_panics Sprint ctx fs ∅ f Hf Hnn Hns) as [msg Hmsg].
    destruct (withContext_loop_panics Sprint ctx fs' ∅ f (proj1 (Hsame f) Hf) Hnn Hns)
      as [msg' Hmsg'].
    rewrite Hmsg, Hmsg'. simpl. split; [done|]. split; intros _; by eexists.
  - apply not_Exists_Forall in Hgood; [|intros f; apply _].
    rewrite Forall_forall in Hgood.
    assert (Hok : forall f, f ∈ fs -> nil_or_string ctx f).
    { intros f Hf. apply not_bad_value. specialize (Hgood f Hf). simpl in Hgood.
      by destruct (bad_value (Value ctx f)). }
    assert (Hok' : forall f, f ∈ fs' -> nil_or_string ctx f).
    { intros f Hf. apply Hok. by apply Hsame. }
    assert (Hinj' : forall f g, f ∈ fs' -> g ∈ fs' -> Sprint f = Sprint g -> f = g).
    { intros f g Hf Hg. apply Hinj; by apply Hsame. }
    destruct (withContext_loop_strings Sprint ctx fs ∅ Hok) as (out & Hrun & _).
    destruct (withContext_loop_strings Sprint ctx fs' ∅ Hok') as (out' & Hrun' & _).
    rewrite Hrun, Hrun'. simpl.
    assert (out = out') as <-.
    { apply map_eq. intros name. apply option_eq. intros v.
      rewrite (withContext_loop_injective ctx fs out Hok Hinj Hrun name v).
      rewrite (withContext_loop_injective ctx fs' out' Hok' Hinj' Hrun' name v).
      split; intros (f & Hf & Hrest); exists f; (split; [by apply Hsame|done]). }
    split; [done|]. split; intros [msg [=]].
Qed.

End KeyOrder.

Lemma withContext_key_order_witness :
  withContext Sprint_string (Init SimpleFormatter DebugLevel ["requestId"; "userId"]) testCtx
  = Returns {| Data := <["requestId" := VString "request-id"]>
                         (<["userId" := VString "user-id"]> ∅) |}
  <-> withContext Sprint_string
        (Init JSONFormatter InfoLevel ["userId"; "requestId"; "userId"]) testCtx
      = Returns {| Data := <["requestId" := VString "request-id"]>
                             (<["userId" := VString "user-id"]> ∅) |}.
Proof.
  apply (withContext_key_order Sprint_string).
  - intros f. rewrite !elem_of_cons, !elem_of_nil. tauto.
  - by intros f g _ _.
Defined.

(** ** Formatter selection, further *)

(** The simple and the text formatter are selected by their own name
    only (after lowering): any other name gives the JSON formatter; and
    each of the three formatters has a name that selects it. *)
Theorem FormatterFromName_exact u (name : string) :
  (FormatterFromName u name = SimpleFormatter <-> strings.ToLower u name = "simple")
  /\ (FormatterFromName u name = TextFormatter <-> strings.ToLower u name = "text")
  /\ (forall f, exists n, FormatterFromName u n = f).
Proof.
  unfold FormatterFromName at 1 2.
  assert (Hcases : forall n,
            match formatMap !! n with Some f => f | None => JSONFormatter end
            = if decide (n = "simple") then SimpleFormatter
              else if decide (n = "text") then TextFormatter else JSONFormatter).
  { intros n. unfold formatMap.
    destruct (decide (n = "simple")) as [->|H1]; [done|].
    destruct (decide (n = "text")) as [->|H2]; [done|].
    destruct (decide (n = "json")) as [->|H3]; [done|].
    rewrite !lookup_insert_ne by done. by rewrite lookup_empty. }
  rewrite Hcases.
  split; [|split].
  - destruct (decide (strings.ToLower u name = "simple")); [done|].
    by destruct (decide (strings.ToLower u name = "text")).
  - destruct (decide (strings.ToLower u name = "simple")) as [->|]; [done|].
    by destruct (decide (strings.ToLower u name = "text")).
  - intros [| |]; [by exists "simple"|by exists "text"|by exists "json"].
Qed.

(** ** The simple formatter *)

Lemma string_app_assoc (a b c : string) : (a +:+ b) +:+ c = a +:+ b +:+ c.
Proof.
  induction a as [|x a IH]; [done|].
  change ((String x a +:+ b) +:+ c) with (String x ((a +:+ b) +:+ c)).
  by rewrite IH.
Qed.

Lemma string_app_empty_r (a : string) : a +:+ "" = a.
Proof.
  induction a as [|x a IH]; [done|].
  change (String x a +:+ "") with (String x (a +:+ "")). by rewrite IH.
Qed.

Lemma Format_loop_acc ff (l : list (string * any)) (acc : string) :
  fold_left (Format_step ff) l acc = acc +:+ fold_left (Format_step ff) l "".
Proof.
  revert acc. induction l as [|kv l IH]; intros acc; simpl.
  - by rewrite string_app_empty_r.
  - rewrite IH. rewrite (IH (Format_step ff "" kv)).
    unfold Format_step. by rewrite !string_app_assoc.
Qed.

Lemma yields_size (data : Fields) range : yields data range -> length range = size data.
Proof.
  unfold yields. intros ->. by rewrite length_map_to_list.
Qed.

(** An entry without fields is the message on a line of its own. *)
Lemma Format_no_fields ff (entry : Entry) (Message : string) range :
  Data entry = ∅ -> Format ff entry Message range = Ok (Message +:+ newline).
Proof. unfold Format. intros ->. by rewrite map_size_empty. Qed.

(** Whatever order the map yields its entries in, every field of the
    entry is on the line: its key, the equals sign and its text, after
    the separator. *)
Theorem Format_prints_every_field ff (entry : Entry) (Message : string)
    (range : list (string * any)) (k : string) (v : any) :
  yields (Data entry) range ->
  Data entry !! k = Some v ->
  exists pre post,
    Format ff entry Message range
    = Ok (Message +:+ "  " +:+ pre +:+ " | " +:+ k +:+ "=" +:+ field_text ff v
          +:+ post +:+ newline).
Proof.
  intros Hy Hkv. unfold Format.
  assert (Hin : (k, v) ∈ range).
  { unfold yields in Hy. rewrite Hy. by apply elem_of_map_to_list. }
  apply list_elem_of_split in Hin as (l1 & l2 & ->).
  assert (Hsz : (0 <? size (Data entry))%nat = true).
  { apply Nat.ltb_lt. rewrite <- (yields_size _ _ Hy), length_app. simpl. lia. }
  rewrite Hsz. exists (fold_left (Format_step ff) l1 ""), (fold_left (Format_step ff) l2 "").
  rewrite fold_left_app. simpl. rewrite Format_loop_acc.
  change (Format_step ff (fold_left (Format_step ff) l1 "") (k, v))
    with (fold_left (Format_step ff) l1 "" +:+ " | " +:+ k +:+ "=" +:+ field_text ff v).
  by rewrite !string_app_assoc.
Qed.

Lemma Format_prints_every_field_witness :
  exists pre post,
    Format no_floats {| Data := <["userId" := VString "user-id"]> ∅ |} "Debug Message 1"
      [("userId", VString "user-id")]
    = Ok ("Debug Message 1" +:+ "  " +:+ pre +:+ " | " +:+ "userId" +:+ "="
          +:+ field_text no_floats (VString "user-id") +:+ post +:+ newline).
Proof.
  apply (Format_prints_every_field no_floats
           {| Data := <["userId" := VString "user-id"]> ∅ |} "Debug Message 1"
           [("userId", VString "user-id")] "userId" (VString "user-id")).
  - unfold yields. vm_compute. reflexivity.
  - vm_compute. reflexivity.
Defined.

Lemma one_line_app a b : one_line (a +:+ b) <-> one_line a /\ one_line b.
Proof. unfold one_line. rewrite bytes_app. apply Forall_app. Qed.

Lemma no_control_one_line s : no_control s -> one_line s.
Proof.
  unfold no_control, one_line. intros Hs.
  eapply Forall_impl; [exact Hs|]. intros b Hb ->. lia.
Qed.

Lemma field_text_one_line ff (v : any) :
  (forall k bits s, ff k bits = Some s -> no_control s) ->
  (forall s, v = VString s -> one_line s) ->
  one_line (field_text ff v).
Proof.
  intros Hff Hv.
  assert (Hjson : one_line (jsonString ff v)).
  { apply no_control_one_line. unfold jsonString, json.Marshal.
    destruct (json.encode ff v) as [s|e] eqn:Hs; [|constructor].
    by apply (encode_no_control ff Hff v). }
  destruct v; simpl; try exact Hjson. by apply Hv.
Qed.

(** A record stays on one line: when the message, the keys and the
    string values hold no line feed, the only line feed [Format] writes
    is the final one, whatever the other values are, since those go
    through the encoder.  (The float formatter is taken to print no
    control character.) *)
Theorem Format_one_line ff (entry : Entry) (Message : string)
    (range : list (string * any)) :
  (forall k bits s, ff k bits = Some s -> no_control s) ->
  yields (Data entry) range ->
  one_line Message ->
  (forall k v, Data entry !! k = Some v ->
     one_line k /\ forall s, v = VString s -> one_line s) ->
  exists body, Format ff entry Message range = Ok (body +:+ newline) /\ one_line body.
Proof.
  intros Hff Hy Hmsg Hdata. unfold Format.
  destruct (0 <? size (Data entry))%nat; [|by exists Message].
  exists (Message +:+ "  " +:+ fold_left (Format_step ff) range "").
  split; [by rewrite !string_app_assoc|].
  rewrite !one_line_app. split; [done|].
  split; [by apply no_control_one_line, (bool_decide_unpack _)|].
  assert (Hrange : Forall (fun kv => one_line kv.1 /\ one_line (field_text ff kv.2)) range).
  { apply Forall_forall. intros [k v] Hin. simpl.
    unfold yields in Hy. rewrite Hy in Hin. apply elem_of_map_to_list in Hin.
    destruct (Hdata k v Hin) as [Hk Hv]. split; [done|].
    by apply field_text_one_line. }
  clear Hy Hdata. induction Hrange as [|[k v] l [Hk Hv] Hl IH] using Forall_ind; simpl.
  - constructor.
  - rewrite Format_loop_acc. apply one_line_app. split; [|done].
    unfold Format_step. simpl. rewrite !one_line_app.
    repeat split; try done; by apply no_control_one_line, (bool_decide_unpack _).
Qed.

Lemma Format_one_line_witness :
  exists body,
    Format no_floats {| Data := <["n" := VSlice [VString newline]]> ∅ |} "msg"
      [("n", VSlice [VString newline])]
    = Ok (body +:+ newline) /\ one_line body.
Proof.
  apply (Format_one_line no_floats).
  - discriminate.
  - unfold yields. vm_compute. reflexivity.
  - by apply no_control_one_line, (bool_decide_unpack _).
  - intros k v Hkv. simpl in Hkv.
    apply lookup_insert_Some in Hkv as [[<- <-]|[_ Hkv]].
    + split; [by apply no_control_one_line, (bool_decide_unpack _)|discriminate].
    + by rewrite lookup_empty in Hkv.
Defined.

(** A string value is written as it is: one that holds a line feed
    breaks the line. *)
Example Format_string_value_raw :
  Format no_floats {| Data := <["n" := VString newline]> ∅ |} "msg" [("n", VString newline)]
  = Ok ("msg   | n=" +:+ newline +:+ newline).
Proof. reflexivity. Qed.

(** ** Entry points, further *)

Section EntryPointsMore.

Context {Key : Type} `{EqDecision Key}.
Variable Sprint : Key -> string.
Variable formatFloat : floatkind -> Z -> option string.

(** What [Debugf], [Infof], [Warnf] and [Errorf] hand to the backend:
    the context fields and nothing else, the format as given, and as many
    arguments as were passed, each of a class the type switch passes
    through. *)
Theorem formatted_calls_hand_over (cfg : config) (ctx : Ctx) (format : string)
    (a : slice any) (e : Entry) :
  withContext Sprint cfg ctx = Returns e ->
  exists args,
    Debugf Sprint formatFloat cfg ctx format a
      = Returns {| r_level := DebugLevel; r_data := Data e;
                   r_payload := Formatted format args |}
    /\ Infof Sprint formatFloat cfg ctx format a
      = Returns {| r_level := InfoLevel; r_data := Data e;
                   r_payload := Formatted format args |}
    /\ Warnf Sprint formatFloat cfg ctx format a
      = Returns {| r_level := WarnLevel; r_data := Data e;
                   r_payload := Formatted format args |}
    /\ Errorf Sprint formatFloat cfg ctx format a
      = Returns {| r_level := ErrorLevel; r_data := Data e;
                   r_payload := Formatted format args |}
    /\ len args = len a
    /\ Forall (fun x => case_passthrough x = true) (elems args).
Proof.
  intros He. exists (normalizeArgs formatFloat a).
  destruct (formatted_calls_normalize Sprint formatFloat cfg ctx format a e He)
    as (Hd & Hi & Hw & Hr).
  rewrite Hd, Hi, Hw, Hr. repeat split.
  - unfold len. by rewrite normalizeArgs_elems, length_map.
  - rewrite normalizeArgs_elems. apply Forall_fmap, Forall_forall.
    intros x _. apply normalized_passthrough.
Qed.

(** [Info], [Warn], [Error] and [Debug] hand their message to the
    backend as it came: a value that [normalizeArgs] would replace by its
    JSON encoding is not replaced.  Called without explicit fields they
    attach the context fields and nothing else. *)
Theorem plain_calls_message_raw (cfg : config) (ctx : Ctx) (i : any) (e : Entry) :
  withContext Sprint cfg ctx = Returns e ->
  case_passthrough i = false ->
  Info Sprint cfg ctx i []
    = Returns {| r_level := InfoLevel; r_data := Data e; r_payload := Plain i |}
  /\ Warn Sprint cfg ctx i []
    = Returns {| r_level := WarnLevel; r_data := Data e; r_payload := Plain i |}
  /\ Error Sprint cfg ctx i []
    = Returns {| r_level := ErrorLevel; r_data := Data e; r_payload := Plain i |}
  /\ Debug Sprint cfg ctx i []
    = Returns {| r_level := DebugLevel; r_data := Data e; r_payload := Plain i |}
  /\ normalized formatFloat i <> i.
Proof.
  intros He Hi. unfold Info, Warn, Error, Debug, Entry_Log. rewrite He.
  unfold mbind, outcome_bind, mret, outcome_ret.
  rewrite withFields_nil.
  repeat split.
  rewrite default_normalized by done. intros Heq. rewrite <- Heq in Hi. discriminate Hi.
Qed.

End EntryPointsMore.

Lemma formatted_calls_hand_over_witness :
  exists args,
    Debugf Sprint_string no_floats testCfg testCtx "%v" (mk_slice [testMap])
      = Returns {| r_level := DebugLevel;
                   r_data := <["requestId" := VString "request-id"]>
                               (<["userId" := VString "user-id"]> ∅);
                   r_payload := Formatted "%v" args |}
    /\ len args = 1%nat.
Proof.
  destruct (formatted_calls_hand_over Sprint_string no_floats testCfg testCtx "%v"
              (mk_slice [testMap])
              {| Data := <["requestId" := VString "request-id"]>
                           (<["userId" := VString "user-id"]> ∅) |})
    as (args & Hd & _ & _ & _ & Hlen & _).
  - vm_compute. reflexivity.
  - exists args. split; [exact Hd|exact Hlen].
Defined.

Lemma plain_calls_message_raw_witness :
  (Info Sprint_string testCfg testCtx testMap [])
  = Returns {| r_level := InfoLevel;
               r_data := <["requestId" := VString "request-id"]>
                           (<["userId" := VString "user-id"]> ∅);
               r_payload := Plain testMap |}.
Proof.
  refine (proj1 (plain_calls_message_raw Sprint_string no_floats testCfg testCtx testMap
            {| Data := <["requestId" := VString "request-id"]>
                         (<["userId" := VString "user-id"]> ∅) |} _ _)).
  - vm_compute. reflexivity.
  - reflexivity.
Defined.

(** ** Keys that print alike *)

Section KeyCollision.

Context {Key : Type} `{EqDecision Key}.
Variable Sprint : Key -> string.

Lemma withContext_loop_lookup (ctx : Ctx) (fs : list Key) (fields out : Fields)
    (name : string) :
  withContext_loop Sprint ctx fs fields = Returns out ->
  out !! name
  = match last (filter (fun f => Sprint f = name
                                  /\ is_nil_interface (Value ctx f) = false) fs) with
    | Some f => Some (Value ctx f)
    | None => fields !! name
    end.
Proof.
  revert fields. induction fs as [|f fs IH]; intros fields; simpl.
  - by intros [= <-].
  - rewrite filter_cons.
    destruct (Value ctx f) eqn:Hv; simpl; try discriminate.
    + intros Hrun. rewrite (IH _ Hrun).
      destruct (decide _) as [[_ Hn]|_]; [|done]. discriminate Hn.
    + intros Hrun. rewrite (IH _ Hrun).
      destruct (decide _) as [[<- _]|Hne].
      * rewrite last_cons, lookup_insert_eq.
        destruct (last (filter _ fs)); [done|by rewrite Hv].
      * rewrite lookup_insert_ne; [done|]. intros Heq. by apply Hne.
Qed.

(** The field under a name is the context value of the last registered
    key that prints as that name and has a non-nil value; a name no such
    key prints as has no field.  So of two registered keys with the same
    [%v] text the later one wins. *)
Theorem withContext_last_key_wins (cfg : config) (ctx : Ctx) (e : Entry) (name : string) :
  withContext Sprint cfg ctx = Returns e ->
  Data e !! name
  = Value ctx <$>
      last (filter (fun f => Sprint f = name /\ is_nil_interface (Value ctx f) = false)
                   (ctxFields cfg)).
Proof.
  unfold withContext.
  destruct (withContext_loop Sprint ctx (ctxFields cfg) ∅) as [out|] eqn:Hrun;
    [|discriminate].
  intros [= <-]. rewrite (withContext_loop_Data Sprint ctx (ctxFields cfg) out Hrun).
  rewrite (withContext_loop_lookup ctx (ctxFields cfg) ∅ out name Hrun).
  by destruct (last _).
Qed.

End KeyCollision.

Lemma withContext_last_key_wins_witness :
  withContext (fun _ : nat => "id") (Init JSONFormatter InfoLevel [1%nat; 2%nat; 3%nat])
    [(1%nat, VString "first"); (2%nat, VString "second")]
  = Returns {| Data := <["id" := VString "second"]> ∅ |}
  /\ Data {| Data := <["id" := VString "second"]> ∅ |} !! "id"
     = Value [(1%nat, VString "first"); (2%nat, VString "second")] <$>
         last (filter (fun f : nat => "id" = "id"
                         /\ is_nil_interface
                              (Value [(1%nat, VString "first"); (2%nat, VString "second")] f)
                            = false)
                      (ctxFields (Init JSONFormatter InfoLevel [1%nat; 2%nat; 3%nat]))).
Proof.
  assert (Hrun : withContext (fun _ : nat => "id")
                   (Init JSONFormatter InfoLevel [1%nat; 2%nat; 3%nat])
                   [(1%nat, VString "first"); (2%nat, VString "second")]
                 = Returns {| Data := <["id" := VString "second"]> ∅ |}).
  { vm_compute. reflexivity. }
  split; [exact Hrun|].
  exact (withContext_last_key_wins (fun _ : nat => "id") _ _ _ "id" Hrun).
Defined.
